(** * djt-pas-http-client: ApiClientFactory and CrudClient

    A shallow embedding of [src/api-client-factory.ts] and
    [src/crud-client.ts], and the properties of the specification proved
    (or refuted) over it.

    Modelling choices, in the order of the file:
    - JavaScript strings are Rocq strings; character classes and case
      mapping are the ASCII ones.
    - JavaScript values are the inductive [jsval]; a parsed JSON object is
      a finite map from its own keys to values.
    - The regular expression of [getEndpointFromSubPath] is an abstract
      syntax tree run by a small backtracking matcher (leftmost start,
      greedy repetition), as the JavaScript engine runs it.
    - [async] methods are computations over the [world]: the process-wide
      config cache, the arrays shared with the caller and the log of the
      requests sent; a rejected promise is a [Thrown] outcome.
    - The transport (class HttpJsonClient of djt-http-client) is external:
      it is a parameter, the body it answers to each request. *)

From Stdlib Require Import ZArith String Ascii List Bool Lia.
From stdpp Require Import base option list gmap strings fin_maps.
Import ListNotations.
Open Scope string_scope.
Open Scope list_scope.

Set Warnings "-register-all".

(** ** Characters and strings *)

Module Chars.

Definition code (c : ascii) : nat := nat_of_ascii c.

(** The class [[A-Z]]. *)
Definition is_upper (c : ascii) : bool :=
  (65 <=? code c)%nat && (code c <=? 90)%nat.

(** The class [[a-z]]. *)
Definition is_lower (c : ascii) : bool :=
  (97 <=? code c)%nat && (code c <=? 122)%nat.

(** The class [[0-9]]. *)
Definition is_digit (c : ascii) : bool :=
  (48 <=? code c)%nat && (code c <=? 57)%nat.

(** The class [[a-z0-9]]. *)
Definition is_lower_or_digit (c : ascii) : bool := is_lower c || is_digit c.

(** One character of [String.prototype.toLowerCase]. *)
Definition to_lower (c : ascii) : ascii :=
  if is_upper c then ascii_of_nat (code c + 32) else c.

Definition underscore : ascii := "_"%char.

End Chars.

(** [String.prototype.toLowerCase]. *)
Definition toLowerCase (s : string) : string :=
  string_of_list_ascii (map Chars.to_lower (list_ascii_of_string s)).

(** [String.prototype.startsWith] for a one-character needle. *)
Definition startsWith_char (c : ascii) (s : string) : bool :=
  match s with
  | String d _ => if decide (c = d) then true else false
  | EmptyString => false
  end.

(** [String.prototype.endsWith] for a one-character needle. *)
Fixpoint endsWith_char (c : ascii) (s : string) : bool :=
  match s with
  | EmptyString => false
  | String d EmptyString => if decide (c = d) then true else false
  | String _ rest => endsWith_char c rest
  end.

(** [s.slice(1)]. *)
Definition slice1 (s : string) : string :=
  match s with
  | String _ rest => rest
  | EmptyString => EmptyString
  end.

(** [Array.prototype.join]. *)
Definition join (sep : string) (parts : list string) : string :=
  String.concat sep parts.

(** *** encodeURIComponent

    Every byte outside the unreserved set
    [A-Z a-z 0-9 - _ . ! ~ * ' ( )] becomes [%XX], in upper-case
    hexadecimal. *)

Module Uri.

Definition is_unreserved (c : ascii) : bool :=
  Chars.is_upper c || Chars.is_lower c || Chars.is_digit c
  || existsb (fun d => if decide (c = d) then true else false)
       ["-"; "_"; "."; "!"; "~"; "*"; "'"; "("; ")"]%char.

Definition hex_digit (n : nat) : ascii :=
  if (n <? 10)%nat then ascii_of_nat (48 + n) else ascii_of_nat (55 + n).

Definition encode_char (c : ascii) : list ascii :=
  if is_unreserved c then [c]
  else ["%"%char; hex_digit (Chars.code c / 16); hex_digit (Chars.code c mod 16)].

Definition encodeURIComponent (s : string) : string :=
  string_of_list_ascii (flat_map encode_char (list_ascii_of_string s)).

End Uri.

(** ** Regular expressions

    The fragment of JavaScript regular expressions that the program uses:
    character classes, greedy [+] on a class, alternation, sequence,
    capture groups and the negative lookahead [(?!$)]. *)

Module Regex.

Inductive regex : Type :=
| Class (p : ascii → bool)
| Plus (p : ascii → bool)
| Alt (r1 r2 : regex)
| Seq (r1 r2 : regex)
| Group (i : nat) (r : regex)
| NotAtEnd.

(** Captures: group number to matched text. *)
Abbreviation captures := (gmap nat (list ascii)).

(** What a sub-match consumed: [inp] minus its suffix [rest]. *)
Definition consumed (inp rest : list ascii) : list ascii :=
  take (length inp - length rest) inp.

Section Matcher.
Context {R : Type}.

(** [[p]+], greedy: at least one character, then as many as possible,
    giving characters back one at a time when the continuation fails. *)
Fixpoint plus_from (p : ascii → bool) (inp : list ascii)
    (k : list ascii → option R) : option R :=
  match inp with
  | c :: rest =>
      if p c then
        match plus_from p rest k with
        | Some x => Some x
        | None => k rest
        end
      else None
  | [] => None
  end.

(** Backtracking matcher in continuation-passing style: [k] is what
    remains to be matched after [r]. *)
Fixpoint rmatch (r : regex) (inp : list ascii) (caps : captures)
    (k : list ascii → captures → option R) : option R :=
  match r with
  | Class p =>
      match inp with
      | c :: rest => if p c then k rest caps else None
      | [] => None
      end
  | Plus p => plus_from p inp (fun rest => k rest caps)
  | Alt r1 r2 =>
      match rmatch r1 inp caps k with
      | Some x => Some x
      | None => rmatch r2 inp caps k
      end
  | Seq r1 r2 => rmatch r1 inp caps (fun rest caps' => rmatch r2 rest caps' k)
  | Group i r1 =>
      rmatch r1 inp caps
        (fun rest caps' => k rest (<[i := consumed inp rest]> caps'))
  | NotAtEnd =>
      match inp with
      | [] => None
      | _ :: _ => k inp caps
      end
  end.
End Matcher.

(** A successful match: the text before it, its captures, the text after. *)
Record found := { before : list ascii; groups : captures; after : list ascii }.

(** [RegExp.prototype.exec] without flags: the leftmost start position
    at which the expression matches. [skipped] is the text already
    passed, most recent character first. *)
Fixpoint search (r : regex) (skipped inp : list ascii) : option found :=
  match rmatch r inp ∅ (fun rest caps => Some (rest, caps)) with
  | Some (rest, caps) =>
      Some {| before := rev skipped; groups := caps; after := rest |}
  | None =>
      match inp with
      | [] => None
      | c :: inp' => search r (c :: skipped) inp'
      end
  end.

(** Replacement templates: literal text and [$n]. *)
Inductive piece : Type :=
| Lit (s : list ascii)
| Ref (i : nat).

Definition expand (tmpl : list piece) (caps : captures) : list ascii :=
  flat_map (fun p => match p with
                     | Lit s => s
                     | Ref i => default [] (caps !! i)
                     end) tmpl.

(** [String.prototype.replace] with a regular expression without the
    global flag: only the first match is replaced. *)
Definition replace (r : regex) (tmpl : list piece) (s : string) : string :=
  match search r [] (list_ascii_of_string s) with
  | Some m =>
      string_of_list_ascii (before m ++ expand tmpl (groups m) ++ after m)
  | None => s
  end.

End Regex.

(** The expression [/([A-Z]+|[a-z0-9])([A-Z])(?!$)/] of
    [getEndpointFromSubPath]. *)
Definition snake_pattern : Regex.regex :=
  Regex.Seq
    (Regex.Group 1 (Regex.Alt (Regex.Plus Chars.is_upper)
                              (Regex.Class Chars.is_lower_or_digit)))
    (Regex.Seq (Regex.Group 2 (Regex.Class Chars.is_upper)) Regex.NotAtEnd).

(** The replacement ['$1_$2']. *)
Definition snake_template : list Regex.piece :=
  [Regex.Ref 1; Regex.Lit [Chars.underscore]; Regex.Ref 2].

(** The callback of [subPath.map]:
    [path.replace(/([A-Z]+|[a-z0-9])([A-Z])(?!$)/, '$1_$2').toLowerCase()]. *)
Definition snake_segment (path : string) : string :=
  toLowerCase (Regex.replace snake_pattern snake_template path).

(** ** JavaScript values *)

(** [JNative name] is the builtin reached under [name] through
    [Object.prototype]; [JError message] is an instance of [Error].
    Numbers are integers here: the program computes with none. *)
Inductive jsval : Type :=
| JUndefined
| JNull
| JBool (b : bool)
| JNum (n : Z)
| JStr (s : string)
| JArr (items : list jsval)
| JObj (fields : gmap string jsval)
| JNative (name : string)
| JError (message : string).

(** What a computation can throw: an existing value ([throw result.body],
    [throw new Error(..)]), the [TypeError] the runtime raises, or the
    [Exception(message, code)] of djt-app. *)
Inductive thrown : Type :=
| ThrownValue (v : jsval)
| TypeError
| Exception (message : jsval) (code : string).

Inductive outcome (A : Type) : Type :=
| Returned (a : A)
| Thrown (e : thrown).
Arguments Returned {A} a.
Arguments Thrown {A} e.

#[global] Instance outcome_ret : MRet outcome := fun A a => Returned a.
#[global] Instance outcome_bind : MBind outcome := fun A B k m =>
  match m with
  | Returned a => k a
  | Thrown e => Thrown e
  end.

Module Js.

(** The property names every object inherits from [Object.prototype]. *)
Definition object_prototype_names : list string :=
  [ "constructor"; "__defineGetter__"; "__defineSetter__"; "hasOwnProperty";
    "__lookupGetter__"; "__lookupSetter__"; "isPrototypeOf";
    "propertyIsEnumerable"; "toString"; "valueOf"; "__proto__";
    "toLocaleString" ].

Definition inherited (k : string) : bool :=
  bool_decide (k ∈ object_prototype_names).

Definition inherited_value (k : string) : jsval :=
  if inherited k then JNative k else JUndefined.

(** [v instanceof Error]. *)
Definition is_error (v : jsval) : bool :=
  match v with
  | JError _ => true
  | _ => false
  end.

(** [k in m] for a plain object with own properties [m]: own keys, then
    the prototype chain. *)
Definition in_object (k : string) (m : gmap string jsval) : bool :=
  bool_decide (is_Some (m !! k)) || inherited k.

(** [m[k]] for a plain object with own properties [m]. *)
Definition read_object (m : gmap string jsval) (k : string) : jsval :=
  match m !! k with
  | Some x => x
  | None => inherited_value k
  end.

(** [k in v]. A primitive on the right raises a [TypeError]. For
    arrays, functions and errors only what [Object.prototype]
    contributes is modelled: the keys the program tests (['error'],
    ['success']) are neither indices nor names of their prototypes. *)
Definition has_property (k : string) (v : jsval) : outcome bool :=
  match v with
  | JObj m => Returned (in_object k m)
  | JArr _ | JNative _ | JError _ => Returned (inherited k)
  | JUndefined | JNull | JBool _ | JNum _ | JStr _ => Thrown TypeError
  end.

(** [v.k]. Reading from [null] or [undefined] raises a [TypeError];
    other values answer with an own property or through the prototype
    chain, of which the part of [Object.prototype] is modelled (the keys
    the program reads, [version_supported], [error], [message] and
    [success], are on no builtin prototype but [message] on errors). *)
Definition get_prop (v : jsval) (k : string) : outcome jsval :=
  match v with
  | JUndefined | JNull => Thrown TypeError
  | JObj m => Returned (read_object m k)
  | JError msg =>
      Returned (if decide (k = "message") then JStr msg else inherited_value k)
  | JArr _ | JNative _ | JBool _ | JNum _ | JStr _ =>
      Returned (inherited_value k)
  end.

(** [Object.keys(v).length]: the number of own enumerable properties. *)
Definition keys_length (v : jsval) : nat :=
  match v with
  | JObj m => size m
  | JArr items => length items
  | _ => 0
  end.

(** [typeof v == 'boolean']. *)
Definition is_boolean (v : jsval) : bool :=
  match v with
  | JBool _ => true
  | _ => false
  end.

(** [a === b]. Primitives compare by value; an object is identical
    only to itself, and the program compares with a string or
    [undefined] on the right, so no two references ever meet. *)
Definition strict_equals (a b : jsval) : bool :=
  match a, b with
  | JUndefined, JUndefined => true
  | JNull, JNull => true
  | JBool x, JBool y => bool_decide (x = y)
  | JNum x, JNum y => bool_decide (x = y)
  | JStr x, JStr y => bool_decide (x = y)
  | _, _ => false
  end.

(** A value of TypeScript type [string | undefined]. *)
Definition of_optional_string (o : option string) : jsval :=
  match o with
  | Some s => JStr s
  | None => JUndefined
  end.

End Js.

(** ** The world of a running process *)

Inductive http_method : Type := GET | POST | PATCH | PUT | HEAD.

(** One request handed to the transport: the URL and timeout the client
    was constructed with, the verb and the data passed along. *)
Record request : Type := {
  req_url : string;
  req_timeout : Z;
  req_method : http_method;
  req_data : jsval
}.

(** The response object of the transport; only [body] is read. *)
Record response : Type := { body : jsval }.

Abbreviation loc := positive.

(** - [arrays]: the arrays of strings that callers hold references to;
    - [configs]: the own properties of the static [ApiClientFactory.configs];
    - [requests]: the requests sent so far, oldest first. *)
Record world : Type := {
  arrays : gmap loc (list string);
  configs : gmap string jsval;
  requests : list request
}.

Definition set_arrays (a : gmap loc (list string)) (w : world) : world :=
  {| arrays := a; configs := configs w; requests := requests w |}.
Definition set_configs (c : gmap string jsval) (w : world) : world :=
  {| arrays := arrays w; configs := c; requests := requests w |}.
Definition set_requests (r : list request) (w : world) : world :=
  {| arrays := arrays w; configs := configs w; requests := r |}.

(** Computations: an [async] method, or a synchronous one with effects. *)
Definition M (A : Type) : Type := world → outcome A * world.

#[global] Instance M_ret : MRet M := fun A a w => (Returned a, w).
#[global] Instance M_bind : MBind M := fun A B k m w =>
  match m w with
  | (Returned a, w') => k a w'
  | (Thrown e, w') => (Thrown e, w')
  end.

Definition throw {A : Type} (e : thrown) : M A := fun w => (Thrown e, w).

(** A synchronous expression that may throw, run inside a computation. *)
Definition lift {A : Type} (o : outcome A) : M A := fun w => (o, w).

(** ** The transport: class HttpJsonClient of djt-http-client

    External to the repository. A client is what its constructor
    received; a request is logged and answered by [server], which sees the
    requests sent before. *)

Record HttpJsonClient : Type := { client_url : string; client_timeout : Z }.

Definition new_HttpJsonClient (url : string) (timeout : Z) : HttpJsonClient :=
  {| client_url := url; client_timeout := timeout |}.

Section Transport.

Variable server : list request → request → jsval.

Definition send (method : http_method) (client : HttpJsonClient)
    (data : jsval) : M response := fun w =>
  let r := {| req_url := client_url client;
              req_timeout := client_timeout client;
              req_method := method;
              req_data := data |} in
  (Returned {| body := server (requests w) r |},
   set_requests (requests w ++ [r]) w).

Definition requestGet := send GET.
Definition requestPost := send POST.
Definition requestPatch := send PATCH.
Definition requestPut := send PUT.
Definition requestHead := send HEAD.

(** ** src/api-client-factory.ts *)

Record ApiClientFactory : Type := {
  apiBaseUrl : string;
  apiNamespace : string;
  requestedVersion : option string;
  timeout : Z
}.

(** [protected static readonly API_CONFIG_REQUEST_TIMEOUT = 5]. *)
Definition API_CONFIG_REQUEST_TIMEOUT : Z := 5.

(** [constructor(apiBaseUrl, apiNamespace, requestedVersion?, timeout = 30)]. *)
Definition new_ApiClientFactory (apiBaseUrl0 apiNamespace0 : string)
    (requestedVersion0 : option string) (timeout0 : option Z)
    : ApiClientFactory :=
  {| apiBaseUrl :=
       if negb (endsWith_char "/" apiBaseUrl0) then apiBaseUrl0 +:+ "/"
       else apiBaseUrl0;
     apiNamespace := Uri.encodeURIComponent apiNamespace0;
     requestedVersion := requestedVersion0;
     timeout := default 30%Z timeout0 |}.

(** [key in configs]. *)
Definition config_known (key : string) : M bool := fun w =>
  (Returned (Js.in_object key (configs w)), w).

(** [configs[key] = value], for a [key] that is not [in configs]. *)
Definition config_store (key : string) (value : jsval) : M unit := fun w =>
  (Returned tt, set_configs (<[key := value]> (configs w)) w).

(** [configs[key]]. *)
Definition config_read (key : string) : M jsval := fun w =>
  (Returned (Js.read_object (configs w) key), w).

(** The URL of the config document of a factory. *)
Definition config_url (f : ApiClientFactory) : string :=
  apiBaseUrl f +:+ ".well-known/pas-" +:+ apiNamespace f +:+ "-api/config".

(** [public async getConfig()]. *)
Definition getConfig (f : ApiClientFactory) : M jsval :=
  known ← config_known (apiNamespace f);
  (if negb known then
     let httpClient :=
       new_HttpJsonClient (config_url f) API_CONFIG_REQUEST_TIMEOUT in
     result ←
       match requestedVersion f with
       | Some version =>
           let params : gmap string jsval :=
             {[ apiNamespace f +:+ "_version" := JStr version ]} in
           requestPost httpClient (JObj params)
       | None => requestGet httpClient JUndefined
       end;
     if Js.is_error (body result) then throw (ThrownValue (body result))
     else config_store (apiNamespace f) (body result)
   else mret tt);;
  config_read (apiNamespace f).

(** [public get isVersionSupported()]. *)
Definition isVersionSupported (f : ApiClientFactory) : M bool :=
  config ← getConfig f;
  supported ← lift (Js.get_prop config "version_supported");
  mret (Js.strict_equals supported
          (Js.of_optional_string (requestedVersion f))).

(** [public createClient(endpointPath)]. *)
Definition createClient (f : ApiClientFactory) (endpointPath : string)
    : HttpJsonClient :=
  let endpointPath :=
    if startsWith_char "/" endpointPath then slice1 endpointPath
    else endpointPath in
  new_HttpJsonClient (apiBaseUrl f +:+ endpointPath) (timeout f).

(** [public async createVerifiedClient(endpointPath)]. *)
Definition createVerifiedClient (f : ApiClientFactory)
    (endpointPath : string) : M HttpJsonClient :=
  supported ← isVersionSupported f;
  if negb supported
  then throw (ThrownValue (JError "APP_VERSION_NOT_SUPPORTED"))
  else mret (createClient f endpointPath).

(** ** src/crud-client.ts *)

Record CrudClient : Type := {
  entity : string;
  apiClientFactory : ApiClientFactory
}.

(** [constructor(apiBaseUrl, entity, requestedVersion?, timeout?)]. *)
Definition new_CrudClient (apiBaseUrl0 entity0 : string)
    (requestedVersion0 : option string) (timeout0 : option Z) : CrudClient :=
  {| entity := Uri.encodeURIComponent entity0;
     apiClientFactory :=
       new_ApiClientFactory apiBaseUrl0 "crud" requestedVersion0 timeout0 |}.

(** The argument [subPath?: string | string[]]: nothing, a string, or a
    reference to an array of the caller. *)
Inductive sub_path : Type :=
| NoSubPath
| OneSubPath (s : string)
| SubPaths (l : loc).

(** [a.unshift(x)] on the array that [l] refers to. The result is the
    array after the call. *)
Definition unshift_shared (l : loc) (x : string) : M (list string) := fun w =>
  let a := x :: default [] (arrays w !! l) in
  (Returned a, set_arrays (<[l := a]> (arrays w)) w).

(** [protected getEndpointFromSubPath(subPath?)]. A sub-path that is not
    an array becomes a fresh array, which nobody else sees; [map] returns
    a new array, so the second [unshift] touches no array of the caller. *)
Definition getEndpointFromSubPath (c : CrudClient) (subPath : sub_path)
    : M string :=
  unshifted ←
    match subPath with
    | SubPaths l => unshift_shared l (entity c)
    | OneSubPath s => mret (entity c :: [s])
    | NoSubPath => mret (entity c :: [])
    end;
  let mapped := map snake_segment unshifted in
  mret (join "/" (["apis"; "pas"; "crud"] ++ mapped)).

(** [protected handleResponse(response)]. *)
Definition handleResponse (r : response) : outcome jsval :=
  if Js.is_error (body r) then Thrown (ThrownValue (body r))
  else
    has_error ← Js.has_property "error" (body r);
    if has_error && (Js.keys_length (body r) =? 1)%nat then
      error ← Js.get_prop (body r) "error";
      message ← Js.get_prop error "message";
      Thrown (Exception message "CRUD_ERROR")
    else Returned (body r).

(** [public async create(subPath?, data?)]. *)
Definition create (c : CrudClient) (subPath : sub_path) (data : jsval)
    : M jsval :=
  endpoint ← getEndpointFromSubPath c subPath;
  httpClient ← createVerifiedClient (apiClientFactory c) endpoint;
  r ← requestPost httpClient data;
  lift (handleResponse r).

(** [public async execute(subPath?, data?)]. *)
Definition execute (c : CrudClient) (subPath : sub_path) (data : jsval)
    : M jsval :=
  endpoint ← getEndpointFromSubPath c subPath;
  httpClient ← createVerifiedClient (apiClientFactory c) endpoint;
  r ← requestPost httpClient data;
  lift (handleResponse r).

(** [public async get(subPath?, data?)]. *)
Definition get (c : CrudClient) (subPath : sub_path) (data : jsval)
    : M jsval :=
  endpoint ← getEndpointFromSubPath c subPath;
  httpClient ← createVerifiedClient (apiClientFactory c) endpoint;
  r ← requestGet httpClient data;
  lift (handleResponse r).

(** The last lines of [isValid]: unwrap a boolean [success]. *)
Definition unwrap_success (_return : jsval) : outcome jsval :=
  has_success ← Js.has_property "success" _return;
  if (has_success : bool) then
    success ← Js.get_prop _return "success";
    if Js.is_boolean success then Returned success else Returned _return
  else Returned _return.

(** [public async isValid(subPath?, data?)]. *)
Definition isValid (c : CrudClient) (subPath : sub_path) (data : jsval)
    : M jsval :=
  endpoint ← getEndpointFromSubPath c subPath;
  httpClient ← createVerifiedClient (apiClientFactory c) endpoint;
  r ← requestHead httpClient data;
  _return ← lift (handleResponse r);
  lift (unwrap_success _return).

(** [public async update(subPath?, data?)]. *)
Definition update (c : CrudClient) (subPath : sub_path) (data : jsval)
    : M jsval :=
  endpoint ← getEndpointFromSubPath c subPath;
  httpClient ← createVerifiedClient (apiClientFactory c) endpoint;
  r ← requestPatch httpClient data;
  lift (handleResponse r).

(** [public async upsert(subPath?, data?)]. *)
Definition upsert (c : CrudClient) (subPath : sub_path) (data : jsval)
    : M jsval :=
  endpoint ← getEndpointFromSubPath c subPath;
  httpClient ← createVerifiedClient (apiClientFactory c) endpoint;
  r ← requestPut httpClient data;
  lift (handleResponse r).

End Transport.

(** ** Reference definitions

    What the statements below compare the program with. *)

(** *** The rewrite of a segment, in the words of the specification

    "At the first transition from a run of uppercase letters or a
    lowercase-letter-or-digit into a following uppercase letter (not at
    the very end of the string), insert an underscore before that
    uppercase letter; then lowercase the entire segment": the first
    position whose character is an uppercase letter, is not the last one,
    and comes right after an uppercase letter, a lowercase letter or a
    digit. *)
Fixpoint underscore_at_first_boundary (s : list ascii) : list ascii :=
  match s with
  | a :: ((b :: _ :: _) as t) =>
      if (Chars.is_upper a || Chars.is_lower_or_digit a) && Chars.is_upper b
      then a :: Chars.underscore :: t
      else a :: underscore_at_first_boundary t
  | _ => s
  end.

Definition snake_segment_in_words (path : string) : string :=
  toLowerCase
    (string_of_list_ascii
       (underscore_at_first_boundary (list_ascii_of_string path))).

(** *** The rewrite of a segment, as the matcher performs it

    [t] starts with an uppercase letter that is not the last character.
    The underscore goes before the last letter of the run of uppercase
    letters starting [t] that is still followed by a character. *)
Fixpoint underscore_closing_run (t : list ascii) : list ascii :=
  match t with
  | x :: ((y :: _ :: _) as r) =>
      if Chars.is_upper y then x :: underscore_closing_run r
      else Chars.underscore :: t
  | _ => Chars.underscore :: t
  end.

(** The leftmost character [a] that is an uppercase letter, a lowercase
    letter or a digit and is followed by an uppercase letter [b] which is
    not the last character starts the match. After a lowercase letter or
    a digit the underscore goes before [b]; after an uppercase letter the
    run is taken as far as it goes. *)
Fixpoint underscore_greedy (s : list ascii) : list ascii :=
  match s with
  | a :: ((b :: _ :: _) as t) =>
      if Chars.is_upper b then
        if Chars.is_upper a then a :: underscore_closing_run t
        else if Chars.is_lower_or_digit a then a :: Chars.underscore :: t
        else a :: underscore_greedy t
      else a :: underscore_greedy t
  | _ => s
  end.

Definition snake_segment_greedy (path : string) : string :=
  toLowerCase
    (string_of_list_ascii (underscore_greedy (list_ascii_of_string path))).

(** No three uppercase letters in a row. *)
Fixpoint no_upper_triple (s : list ascii) : bool :=
  match s with
  | a :: ((b :: c :: _) as t) =>
      negb (Chars.is_upper a && Chars.is_upper b && Chars.is_upper c)
      && no_upper_triple t
  | _ => true
  end.

(** *** Sub-paths as sequences *)

(** The sub-path normalised to a sequence: empty when absent, one element
    for a string, the contents of the array otherwise. *)
Definition segments (subPath : sub_path) (w : world) : list string :=
  match subPath with
  | NoSubPath => []
  | OneSubPath s => [s]
  | SubPaths l => default [] (arrays w !! l)
  end.

(** The endpoint that the specification describes, with a given rewrite of
    the segments. *)
Definition endpoint_with (rewrite_segment : string → string) (c : CrudClient)
    (subPath : sub_path) (w : world) : string :=
  join "/" (["apis"; "pas"; "crud"]
            ++ map rewrite_segment (entity c :: segments subPath w)).

(** *** The config request *)

(** The request that [getConfig] sends when it has to fetch. *)
Definition config_request (f : ApiClientFactory) : request :=
  {| req_url := config_url f;
     req_timeout := API_CONFIG_REQUEST_TIMEOUT;
     req_method := match requestedVersion f with
                   | Some _ => POST
                   | None => GET
                   end;
     req_data := match requestedVersion f with
                 | Some version =>
                     JObj {[ apiNamespace f +:+ "_version" := JStr version ]}
                 | None => JUndefined
                 end |}.

(** *** [isValid], in the words of the specification

    "If the body is a record with a boolean field [success], unwrap to
    just that boolean; otherwise return the normalized body as-is." *)
Definition unwrap_in_words (normalized : jsval) : jsval :=
  match normalized with
  | JObj fields =>
      match fields !! "success" with
      | Some (JBool b) => JBool b
      | _ => normalized
      end
  | _ => normalized
  end.

(** The six public operations of [CrudClient]. *)
Definition operations (server : list request → request → jsval)
    : list (CrudClient → sub_path → jsval → M jsval) :=
  [ create server; execute server; get server;
    isValid server; update server; upsert server ].

(** *** Auxiliary definitions for the matcher *)

Module MatcherAux.
Import Regex.

(** The final continuation of [search]. *)
Definition accept : list ascii → captures → option (list ascii * captures) :=
  fun rest caps => Some (rest, caps).

(** What is left of [snake_pattern] once group 1 has consumed [inp]
    down to [rest]: group 2 and the lookahead. *)
Definition tail_match (inp rest : list ascii)
    : option (list ascii * captures) :=
  match rest with
  | c :: rest2 =>
      if Chars.is_upper c then
        match rest2 with
        | [] => None
        | _ :: _ =>
            Some (rest2,
                  <[2 := consumed rest rest2]> (<[1 := consumed inp rest]> ∅))
        end
      else None
  | [] => None
  end.

(** The input from the start of a match on, after replacement. *)
Definition splice (m : list ascii * captures) : list ascii :=
  expand snake_template m.2 ++ m.1.

(** The whole input after replacement. *)
Definition rebuild (m : found) : list ascii :=
  before m ++ expand snake_template (groups m) ++ after m.

End MatcherAux.

(** *** Concrete processes *)

Module Examples.

(** A transport whose every answer is the same body. *)
Definition constant_server (b : jsval) : list request → request → jsval :=
  fun _ _ => b.

(** A server that supports version 1.0 and answers every other request
    with [{success: true}]. *)
Definition versioned_server : list request → request → jsval :=
  fun _ r =>
    if String.eqb (req_url r) "http://x/.well-known/pas-crud-api/config"
    then JObj {[ "version_supported" := JStr "1.0" ]}
    else JObj {[ "success" := JBool true ]}.

(** A fresh process in which the caller holds the array ["getProfile"]. *)
Definition fresh : world :=
  {| arrays := {[ 1%positive := ["getProfile"] ]};
     configs := ∅;
     requests := [] |}.

Definition crud_factory : ApiClientFactory :=
  new_ApiClientFactory "http://x" "crud" (Some "1.0") None.

Definition user_accounts : CrudClient :=
  new_CrudClient "http://x" "UserAccount" (Some "1.0") None.

End Examples.

(** *** Frame of a computation *)

(** A computation that leaves the arrays of the callers alone. *)
Definition keeps_arrays {A : Type} (m : M A) : Prop :=
  ∀ w, arrays (m w).2 = arrays w.

(** ** The public interface as data

    The operations of [CrudClient] and the public methods of
    [ApiClientFactory] that touch the world, so that statements can range
    over all of them and over sequences of calls. *)

Inductive crud_op : Type :=
| OpCreate | OpExecute | OpGet | OpIsValid | OpUpdate | OpUpsert.

(** The method of [CrudClient] behind each name. *)
Definition perform (server : list request → request → jsval) (o : crud_op)
    : CrudClient → sub_path → jsval → M jsval :=
  match o with
  | OpCreate => create server
  | OpExecute => execute server
  | OpGet => get server
  | OpIsValid => isValid server
  | OpUpdate => update server
  | OpUpsert => upsert server
  end.

(** The verb each operation sends its request with. *)
Definition method_of (o : crud_op) : http_method :=
  match o with
  | OpCreate | OpExecute => POST
  | OpGet => GET
  | OpIsValid => HEAD
  | OpUpdate => PATCH
  | OpUpsert => PUT
  end.

(** What each operation does with the normalised body: [isValid] unwraps
    it, the others return it. *)
Definition finish (o : crud_op) (normalized : jsval) : outcome jsval :=
  match o with
  | OpIsValid => unwrap_success normalized
  | _ => Returned normalized
  end.

(** The request of an operation on the resource itself. *)
Definition crud_request (o : crud_op) (c : CrudClient) (subPath : sub_path)
    (data : jsval) (w : world) : request :=
  {| req_url :=
       apiBaseUrl (apiClientFactory c) +:+ endpoint_with snake_segment c subPath w;
     req_timeout := timeout (apiClientFactory c);
     req_method := method_of o;
     req_data := data |}.








(** A server that supports version 1.0 and whose resources time out. *)
Definition unreachable_resources : list request → request → jsval :=
  fun _ r =>
    if String.eqb (req_url r) "http://x/.well-known/pas-crud-api/config"
    then JObj {[ "version_supported" := JStr "1.0" ]}
    else JError "timeout".

(** * Properties *)

(** ** The matcher on the pattern of [getEndpointFromSubPath] *)

Module MatcherFacts.
Import Regex MatcherAux.

Lemma rmatch_snake_pattern inp :
  rmatch snake_pattern inp ∅ accept =
  match plus_from Chars.is_upper inp (tail_match inp) with
  | Some x => Some x
  | None =>
      match inp with
      | c :: rest => if Chars.is_lower_or_digit c then tail_match inp rest else None
      | [] => None
      end
  end.
Proof. reflexivity. Qed.

Lemma consumed_app (pre rest : list ascii) : consumed (pre ++ rest) rest = pre.
Proof.
  unfold consumed. rewrite length_app.
  replace (length pre + length rest - length rest) with (length pre) by lia.
  by rewrite take_app_length.
Qed.

Lemma upper_not_lower_or_digit c :
  Chars.is_upper c = true → Chars.is_lower_or_digit c = false.
Proof.
  unfold Chars.is_upper, Chars.is_lower_or_digit, Chars.is_lower, Chars.is_digit.
  intros H. apply andb_true_iff in H as [H1 H2].
  apply Nat.leb_le in H1, H2.
  apply orb_false_iff. split; apply andb_false_iff.
  - left. apply Nat.leb_gt. lia.
  - right. apply Nat.leb_gt. lia.
Qed.

Lemma splice_tail_match pre c rest2 :
  splice <$> tail_match (pre ++ c :: rest2) (c :: rest2) =
  if Chars.is_upper c then
    match rest2 with
    | [] => None
    | _ :: _ => Some (pre ++ Chars.underscore :: c :: rest2)
    end
  else None.
Proof.
  unfold tail_match. destruct (Chars.is_upper c); [|done].
  destruct rest2 as [|d rest3]; [done|].
  cbn [fmap option_fmap option_map]. f_equal.
  unfold splice, snake_template, expand. cbn [flat_map fst snd].
  rewrite lookup_insert_ne by done. rewrite !lookup_insert_eq. cbn [default].
  rewrite consumed_app.
  change (c :: d :: rest3) with ([c] ++ d :: rest3). rewrite consumed_app.
  rewrite app_nil_r. by rewrite <- !app_assoc.
Qed.

Lemma splice_plus_from inp : ∀ pre,
  splice <$> plus_from Chars.is_upper inp (tail_match (pre ++ inp)) =
  match inp with
  | a :: ((b :: _ :: _) as t) =>
      if Chars.is_upper a && Chars.is_upper b
      then Some (pre ++ a :: underscore_closing_run t)
      else None
  | _ => None
  end.
Proof.
  induction inp as [|a t IH]; intros pre; [done|].
  cbn [plus_from].
  destruct (Chars.is_upper a) eqn:Ha.
  2:{ destruct t as [|b [|c t']]; done. }
  specialize (IH (pre ++ [a])).
  replace ((pre ++ [a]) ++ t) with (pre ++ a :: t) in IH by (by rewrite <- app_assoc).
  destruct (plus_from Chars.is_upper t (tail_match (pre ++ a :: t))) as [m|] eqn:Hrec.
  - cbn [fmap option_fmap option_map] in IH |- *.
    destruct t as [|b [|c [|d t']]]; try done.
    destruct (Chars.is_upper b) eqn:Hb; cbn [andb] in IH; [|done].
    destruct (Chars.is_upper c) eqn:Hc; [|done].
    cbn [andb underscore_closing_run]. rewrite Hc.
    injection IH as IH. rewrite IH. by rewrite <- app_assoc.
  - cbn [fmap option_fmap option_map] in IH.
    destruct t as [|b rest2].
    { done. }
    change (pre ++ a :: b :: rest2) with (pre ++ [a] ++ b :: rest2).
    rewrite app_assoc. rewrite splice_tail_match.
    destruct (Chars.is_upper b) eqn:Hb.
    2:{ destruct rest2; done. }
    destruct rest2 as [|c rest3]; [done|].
    cbn [andb]. f_equal. rewrite <- app_assoc. cbn [app]. do 2 f_equal.
    destruct rest3 as [|d rest4]; [done|].
    cbn [underscore_closing_run].
    destruct (Chars.is_upper c) eqn:Hc; [|done].
    cbn [andb] in IH. done.
Qed.
(** The match of [snake_pattern] at the start of [inp], spliced. *)
Lemma splice_match_here inp :
  splice <$> rmatch snake_pattern inp ∅ accept =
  match inp with
  | a :: ((b :: _ :: _) as t) =>
      if Chars.is_upper b then
        if Chars.is_upper a then Some (a :: underscore_closing_run t)
        else if Chars.is_lower_or_digit a then Some (a :: Chars.underscore :: t)
        else None
      else None
  | _ => None
  end.
Proof.
  rewrite rmatch_snake_pattern.
  pose proof (splice_plus_from inp []) as Hplus. cbn [app] in Hplus.
  destruct (plus_from Chars.is_upper inp (tail_match inp)) as [m|] eqn:Hm.
  - rewrite Hplus. destruct inp as [|a [|b [|c t]]]; try done.
    destruct (Chars.is_upper a), (Chars.is_upper b); done.
  - destruct inp as [|a t]; [done|].
    pose proof (splice_tail_match [a]) as Htail. cbn [app] in Htail.
    destruct t as [|b rest2].
    { by destruct (Chars.is_lower_or_digit a). }
    destruct (Chars.is_lower_or_digit a) eqn:Hld.
    + rewrite Htail.
      destruct (Chars.is_upper a) eqn:Ha.
      { apply upper_not_lower_or_digit in Ha. congruence. }
      destruct (Chars.is_upper b), rest2; done.
    + cbn [fmap option_fmap option_map] in Hplus |- *.
      destruct rest2 as [|c t]; [done|].
      destruct (Chars.is_upper b); [|done].
      destruct (Chars.is_upper a); [done|done].
Qed.

Lemma search_snake_pattern inp : ∀ skipped,
  match search snake_pattern skipped inp with
  | Some m => rebuild m
  | None => rev skipped ++ inp
  end = rev skipped ++ underscore_greedy inp.
Proof.
  induction inp as [|a t IH]; intros skipped; [done|].
  cbn [search].
  pose proof (splice_match_here (a :: t)) as Hhere.
  change (fun rest caps => Some (rest, caps)) with accept.
  destruct (rmatch snake_pattern (a :: t) ∅ accept) as [[rest caps]|] eqn:Hm.
  - cbn [fmap option_fmap option_map] in Hhere.
    unfold rebuild. cbn [before groups after]. f_equal.
    unfold splice in Hhere. cbn [fst snd] in Hhere.
    destruct t as [|b [|c t']]; try done.
    cbn [underscore_greedy].
    destruct (Chars.is_upper b); [|done].
    destruct (Chars.is_upper a).
    { by injection Hhere. }
    destruct (Chars.is_lower_or_digit a); [by injection Hhere | done].
  - cbn [fmap option_fmap option_map] in Hhere.
    specialize (IH (a :: skipped)). cbn [rev] in IH.
    rewrite <- (app_assoc (rev skipped) [a] (underscore_greedy t)) in IH.
    rewrite <- (app_assoc (rev skipped) [a] t) in IH.
    cbn [app] in IH.
    rewrite IH. f_equal.
    destruct t as [|b [|c t']]; try done.
    cbn [underscore_greedy].
    destruct (Chars.is_upper b); [|done].
    destruct (Chars.is_upper a); [done|].
    destruct (Chars.is_lower_or_digit a); done.
Qed.

Lemma replace_snake_pattern (s : string) :
  replace snake_pattern snake_template s =
  string_of_list_ascii (underscore_greedy (list_ascii_of_string s)).
Proof.
  unfold replace.
  pose proof (search_snake_pattern (list_ascii_of_string s) []) as H.
  cbn [rev app] in H.
  destruct (search snake_pattern [] (list_ascii_of_string s)) as [m|].
  - unfold rebuild in H. by rewrite H.
  - rewrite <- H. by rewrite string_of_list_ascii_of_string.
Qed.
End MatcherFacts.

(** ** Endpoint derivation *)

Lemma snake_segment_is_greedy (path : string) :
  snake_segment path = snake_segment_greedy path.
Proof.
  unfold snake_segment, snake_segment_greedy.
  by rewrite MatcherFacts.replace_snake_pattern.
Qed.

(** The program and the wording of the specification part ways only on
    a segment with three uppercase letters in a row. *)
Lemma underscore_greedy_first_boundary s :
  no_upper_triple s = true →
  underscore_greedy s = underscore_at_first_boundary s.
Proof.
  induction s as [|a t IH]; [done|].
  destruct t as [|b [|c t']]; [done|done|].
  intros H. cbn [no_upper_triple] in H.
  apply andb_true_iff in H as [Htriple Hrest].
  specialize (IH Hrest).
  cbn [underscore_greedy underscore_at_first_boundary] in *.
  destruct (Chars.is_upper b) eqn:Hb.
  - destruct (Chars.is_upper a) eqn:Ha; cbn [orb andb] in *.
    + cbn [underscore_closing_run].
      destruct (Chars.is_upper c); [discriminate|].
      by destruct t'.
    + destruct (Chars.is_lower_or_digit a); [done|]. by rewrite IH.
  - rewrite andb_false_r. by rewrite IH.
Qed.

Lemma getEndpointFromSubPath_unfold c subPath w :
  getEndpointFromSubPath c subPath w =
  (Returned (endpoint_with snake_segment c subPath w),
   match subPath with
   | SubPaths l =>
       set_arrays (<[l := entity c :: default [] (arrays w !! l)]> (arrays w)) w
   | _ => w
   end).
Proof. by destruct subPath. Qed.

(** C2, as the program has it. The endpoint is the sub-path normalised to
    a sequence, with the entity in front, every segment rewritten, behind
    [apis/pas/crud] and joined with [/]. The rewrite of a segment inserts
    one underscore at most: the match starts at the leftmost uppercase
    letter, lowercase letter or digit that an uppercase letter other than
    the last character follows; after a lowercase letter or digit the
    underscore goes before that uppercase letter, and after an uppercase
    letter the whole run of uppercase letters is taken, the underscore
    going before the last letter of the run that is not the last
    character; the segment is then lowercased. Entity ["UserAccount"] with
    sub-path [["getProfile"]] yields
    ["apis/pas/crud/user_account/get_profile"]. *)
Theorem getEndpointFromSubPath_endpoint :
  (∀ c subPath w,
     (getEndpointFromSubPath c subPath w).1 =
     Returned (endpoint_with snake_segment_greedy c subPath w))
  ∧ (∀ apiBaseUrl requestedVersion timeout l w,
       (getEndpointFromSubPath
          (new_CrudClient apiBaseUrl "UserAccount" requestedVersion timeout)
          (SubPaths l)
          (set_arrays (<[l := ["getProfile"]]> (arrays w)) w)).1 =
       Returned "apis/pas/crud/user_account/get_profile").
Proof.
  split.
  - intros c subPath w. rewrite getEndpointFromSubPath_unfold. cbn [fst].
    f_equal. unfold endpoint_with. do 2 f_equal.
    apply map_ext. intros s. apply snake_segment_is_greedy.
  - intros apiBaseUrl requestedVersion timeout l w.
    rewrite getEndpointFromSubPath_unfold. cbn [fst]. f_equal.
    unfold endpoint_with, segments, set_arrays. cbn [arrays].
    rewrite lookup_insert_eq. reflexivity.
Qed.

(** C2, as the specification words it, fails on a segment that starts
    with three uppercase letters: the program takes the run [URL] whole,
    the first qualifying boundary is after [U]. *)
Lemma getEndpointFromSubPath_not_first_boundary :
  (getEndpointFromSubPath
     (new_CrudClient "http://x" "URLMapping" None None)
     NoSubPath Examples.fresh).1
  = Returned "apis/pas/crud/url_mapping"
  ∧ endpoint_with snake_segment_in_words
      (new_CrudClient "http://x" "URLMapping" None None)
      NoSubPath Examples.fresh
    = "apis/pas/crud/u_rlmapping"
  ∧ (getEndpointFromSubPath
       (new_CrudClient "http://x" "URLMapping" None None)
       NoSubPath Examples.fresh).1
    ≠ Returned
        (endpoint_with snake_segment_in_words
           (new_CrudClient "http://x" "URLMapping" None None)
           NoSubPath Examples.fresh).
Proof.
  split; [reflexivity|]. split; [reflexivity|]. discriminate.
Qed.

(** ** The config cache *)

Section ConfigCache.

Variable server : list request → request → jsval.

(** A namespace that is [in configs] is answered from the cache: no
    request, no change. *)
Lemma getConfig_known f w :
  Js.in_object (apiNamespace f) (configs w) = true →
  getConfig server f w =
  (Returned (Js.read_object (configs w) (apiNamespace f)), w).
Proof.
  intros H. unfold getConfig, mbind, M_bind, config_known. by rewrite H.
Qed.

(** A namespace that is not [in configs] is fetched with
    [config_request]; an error body is thrown and nothing is stored, any
    other body is stored under the namespace and returned. *)
Lemma getConfig_fetch f w :
  Js.in_object (apiNamespace f) (configs w) = false →
  getConfig server f w =
  let answer := server (requests w) (config_request f) in
  let sent := set_requests (requests w ++ [config_request f]) w in
  if Js.is_error answer then (Thrown (ThrownValue answer), sent)
  else (Returned answer,
        set_configs (<[apiNamespace f := answer]> (configs w)) sent).
Proof.
  intros H. unfold getConfig, mbind, M_bind, config_known. rewrite H.
  cbn [negb]. unfold config_request.
  destruct (requestedVersion f) as [version|];
    unfold requestPost, requestGet, send, new_HttpJsonClient;
    cbn [client_url client_timeout body];
    match goal with |- context [Js.is_error ?b] => destruct (Js.is_error b) end;
    try reflexivity;
    unfold config_store, config_read, set_configs, set_requests, Js.read_object;
    cbn [configs]; by rewrite lookup_insert_eq.
Qed.

(** An own entry of the cache makes the namespace known. *)
Lemma cached_known ns (w : world) v :
  configs w !! ns = Some v → Js.in_object ns (configs w) = true.
Proof.
  intros H. unfold Js.in_object. rewrite H.
  rewrite bool_decide_eq_true_2; [done | by eexists].
Qed.

(** Whatever the factory, [getConfig] keeps every entry of the cache. *)
Lemma getConfig_keeps_entries f w ns v :
  configs w !! ns = Some v →
  configs (getConfig server f w).2 !! ns = Some v.
Proof.
  intros Hns.
  destruct (Js.in_object (apiNamespace f) (configs w)) eqn:Hknown.
  - by rewrite getConfig_known.
  - rewrite getConfig_fetch by done. cbn zeta.
    destruct (Js.is_error _); cbn [snd set_configs set_requests configs]; [done|].
    rewrite lookup_insert_ne; [done|].
    intros Heq. rewrite Heq in Hknown.
    apply cached_known in Hns. congruence.
Qed.

(** The requests are a log: [getConfig] only appends to it, one request at most. *)
Lemma getConfig_requests f w :
  requests (getConfig server f w).2 =
  requests w ++ (if Js.in_object (apiNamespace f) (configs w) then []
                 else [config_request f]).
Proof.
  destruct (Js.in_object (apiNamespace f) (configs w)) eqn:Hknown.
  - rewrite getConfig_known by done. cbn. by rewrite app_nil_r.
  - rewrite getConfig_fetch by done. cbn zeta.
    by destruct (Js.is_error _).
Qed.

Lemma getConfig_arrays f w : arrays (getConfig server f w).2 = arrays w.
Proof.
  destruct (Js.in_object (apiNamespace f) (configs w)) eqn:Hknown.
  - by rewrite getConfig_known.
  - rewrite getConfig_fetch by done. cbn zeta.
    by destruct (Js.is_error _).
Qed.

End ConfigCache.

(** ** ApiClientFactory *)

Section Factory.

Variable server : list request → request → jsval.

(** A fetched config is memoised: the first call for a namespace that
    is not known sends one request and stores the body; after that every
    factory with the same namespace gets the stored body, with no
    request and no change. *)
Lemma getConfig_memoised f f' w :
  Js.in_object (apiNamespace f) (configs w) = false →
  Js.is_error (server (requests w) (config_request f)) = false →
  apiNamespace f' = apiNamespace f →
  (getConfig server f w).1 = Returned (server (requests w) (config_request f))
  ∧ configs (getConfig server f w).2 !! apiNamespace f
    = Some (server (requests w) (config_request f))
  ∧ requests (getConfig server f w).2 = requests w ++ [config_request f]
  ∧ getConfig server f' (getConfig server f w).2
    = (Returned (server (requests w) (config_request f)),
       (getConfig server f w).2).
Proof.
  intros Hnew Hok Hsame.
  rewrite (getConfig_fetch server f w Hnew). cbn zeta. rewrite Hok.
  cbn [fst snd]. split; [done|].
  assert (Hstored :
    configs (set_configs
               (<[apiNamespace f := server (requests w) (config_request f)]>
                  (configs w))
               (set_requests (requests w ++ [config_request f]) w))
      !! apiNamespace f
    = Some (server (requests w) (config_request f))).
  { cbn [set_configs configs]. apply lookup_insert_eq. }
  split; [done|]. split; [done|].
  rewrite getConfig_known.
  - unfold Js.read_object. rewrite Hsame. by rewrite Hstored.
  - rewrite Hsame. by eapply cached_known.
Qed.

(** C1 at the namespace ["constructor"]: the name is [in configs]
    through [Object.prototype], so the very first call of a fresh
    process sends no request, stores nothing and answers with the
    builtin found under that name. *)
Theorem getConfig_constructor_namespace :
  ∀ apiBaseUrl requestedVersion timeout callers_arrays sent,
    getConfig server
      (new_ApiClientFactory apiBaseUrl "constructor" requestedVersion timeout)
      {| arrays := callers_arrays; configs := ∅; requests := sent |}
    = (Returned (JNative "constructor"),
       {| arrays := callers_arrays; configs := ∅; requests := sent |}).
Proof.
  intros. by rewrite getConfig_known.
Qed.

(** C6. When [getConfig] has to fetch, it sends exactly one request: to
    [{apiBaseUrl}.well-known/pas-{namespace}-api/config], with the
    timeout 5 whatever the timeout of the factory, as a POST carrying
    [{ "{namespace}_version": requestedVersion }] when a version was
    requested and as a GET without data otherwise. *)
Theorem getConfig_fetch_protocol f w :
  Js.in_object (apiNamespace f) (configs w) = false →
  requests (getConfig server f w).2 =
  requests w ++
    [ {| req_url :=
           apiBaseUrl f +:+ ".well-known/pas-" +:+ apiNamespace f
           +:+ "-api/config";
         req_timeout := 5;
         req_method :=
           match requestedVersion f with Some _ => POST | None => GET end;
         req_data :=
           match requestedVersion f with
           | Some version =>
               JObj {[ apiNamespace f +:+ "_version" := JStr version ]}
           | None => JUndefined
           end |} ].
Proof.
  intros Hnew. rewrite getConfig_requests. by rewrite Hnew.
Qed.

(** C10. When the fetch of [getConfig] is answered with an error value,
    that value is thrown, the cache is as it was (the request is logged,
    nothing else changes), and the next [getConfig] for the namespace,
    from any factory, sends the request again. *)
Theorem getConfig_failure_leaves_cache f f' w :
  Js.in_object (apiNamespace f) (configs w) = false →
  Js.is_error (server (requests w) (config_request f)) = true →
  apiNamespace f' = apiNamespace f →
  getConfig server f w
  = (Thrown (ThrownValue (server (requests w) (config_request f))),
     set_requests (requests w ++ [config_request f]) w)
  ∧ configs (getConfig server f w).2 = configs w
  ∧ configs (getConfig server f w).2 !! apiNamespace f = None
  ∧ requests (getConfig server f' (getConfig server f w).2).2
    = requests (getConfig server f w).2 ++ [config_request f'].
Proof.
  intros Hnew Herr Hsame.
  assert (Hrun : getConfig server f w
    = (Thrown (ThrownValue (server (requests w) (config_request f))),
       set_requests (requests w ++ [config_request f]) w)).
  { rewrite getConfig_fetch by done. cbn zeta. by rewrite Herr. }
  rewrite Hrun. cbn [fst snd set_requests configs].
  split; [done|]. split; [done|]. split.
  - unfold Js.in_object in Hnew. apply orb_false_iff in Hnew as [Hown _].
    apply bool_decide_eq_false in Hown.
    destruct (configs w !! apiNamespace f) eqn:E; [|done].
    exfalso. apply Hown. by eexists.
  - rewrite getConfig_requests. rewrite Hsame.
    change (configs (set_requests (requests w ++ [config_request f]) w))
      with (configs w).
    by rewrite Hnew.
Qed.

(** C5. On the config that [getConfig] returns, [isVersionSupported] is
    the strict comparison of its [version_supported] with the requested
    version: without a requested version it holds only for
    [undefined], with one only for the same string. *)
Theorem isVersionSupported_strict_equality f w config w' supported :
  getConfig server f w = (Returned config, w') →
  Js.get_prop config "version_supported" = Returned supported →
  isVersionSupported server f w
  = (Returned (Js.strict_equals supported
                 (Js.of_optional_string (requestedVersion f))), w')
  ∧ (requestedVersion f = None →
     (isVersionSupported server f w).1 = Returned true
     ↔ supported = JUndefined)
  ∧ (∀ version, requestedVersion f = Some version →
     (isVersionSupported server f w).1 = Returned true
     ↔ supported = JStr version).
Proof.
  intros Hconfig Hread.
  assert (Hrun : isVersionSupported server f w
    = (Returned (Js.strict_equals supported
                   (Js.of_optional_string (requestedVersion f))), w')).
  { unfold isVersionSupported, mbind, M_bind. rewrite Hconfig.
    unfold lift. by rewrite Hread. }
  rewrite Hrun. cbn [fst]. split; [done|]. split.
  - intros ->. cbn [Js.of_optional_string].
    destruct supported; cbn [Js.strict_equals]; split; congruence.
  - intros version ->. cbn [Js.of_optional_string].
    destruct supported; cbn [Js.strict_equals]; split; try congruence.
    + intros [= H]. apply bool_decide_eq_true in H. by subst.
    + intros [= ->]. by rewrite bool_decide_eq_true_2.
Qed.

End Factory.

Section VerifiedClient.

Variable server : list request → request → jsval.

Lemma isVersionSupported_unfold f w :
  isVersionSupported server f w =
  match getConfig server f w with
  | (Returned config, w') =>
      (match Js.get_prop config "version_supported" with
       | Returned supported =>
           Returned (Js.strict_equals supported
                       (Js.of_optional_string (requestedVersion f)))
       | Thrown e => Thrown e
       end, w')
  | (Thrown e, w') => (Thrown e, w')
  end.
Proof.
  unfold isVersionSupported, mbind, M_bind, lift.
  destruct (getConfig server f w) as [[config|e] w']; [|done].
  by destruct (Js.get_prop config "version_supported").
Qed.

Lemma createVerifiedClient_unfold f endpointPath w :
  createVerifiedClient server f endpointPath w =
  match isVersionSupported server f w with
  | (Returned true, w') => (Returned (createClient f endpointPath), w')
  | (Returned false, w') =>
      (Thrown (ThrownValue (JError "APP_VERSION_NOT_SUPPORTED")), w')
  | (Thrown e, w') => (Thrown e, w')
  end.
Proof.
  unfold createVerifiedClient, mbind, M_bind.
  by destruct (isVersionSupported server f w) as [[[]|e] w'].
Qed.

(** Reading a property fails on [null] and [undefined] only, and then
    with a [TypeError]. *)
Lemma get_prop_thrown v k e :
  Js.get_prop v k = Thrown e ↔ (v = JNull ∨ v = JUndefined) ∧ e = TypeError.
Proof.
  destruct v; cbn [Js.get_prop]; split; intros H;
    try discriminate; try (injection H as <-); try (by auto);
    by destruct H as [[?|?] ?]; subst.
Qed.

(** C4, as the program has it. [createVerifiedClient] returns the client
    of [createClient] when the version check yields true; it fails with
    an [Error] whose message is [APP_VERSION_NOT_SUPPORTED] when the
    check yields false; it fails with what [getConfig] throws when the
    fetch fails; and it fails with a [TypeError] when the config is
    [null] or [undefined], whose [version_supported] cannot be read.
    It fails in these cases only. *)
Theorem createVerifiedClient_outcome f endpointPath w :
  (∀ w', isVersionSupported server f w = (Returned true, w') →
     createVerifiedClient server f endpointPath w
     = (Returned (createClient f endpointPath), w'))
  ∧ (∀ w', isVersionSupported server f w = (Returned false, w') →
       createVerifiedClient server f endpointPath w
       = (Thrown (ThrownValue (JError "APP_VERSION_NOT_SUPPORTED")), w'))
  ∧ (∀ e, (getConfig server f w).1 = Thrown e →
       (createVerifiedClient server f endpointPath w).1 = Thrown e)
  ∧ ((getConfig server f w).1 = Returned JNull
     ∨ (getConfig server f w).1 = Returned JUndefined →
     (createVerifiedClient server f endpointPath w).1 = Thrown TypeError)
  ∧ ((∃ e, (createVerifiedClient server f endpointPath w).1 = Thrown e)
     ↔ (isVersionSupported server f w).1 = Returned false
       ∨ (∃ e, (getConfig server f w).1 = Thrown e)
       ∨ (getConfig server f w).1 = Returned JNull
       ∨ (getConfig server f w).1 = Returned JUndefined).
Proof.
  rewrite createVerifiedClient_unfold, isVersionSupported_unfold.
  destruct (getConfig server f w) as [[config|e0] w0]; cbn [fst].
  2:{ repeat split; try (intros; discriminate).
      - by intros e [= ->].
      - by intros [|].
      - intros _. right. left. by eexists.
      - intros _. by eexists. }
  destruct (Js.get_prop config "version_supported") as [supported|e1] eqn:Hread.
  - assert (Hnot : config ≠ JNull ∧ config ≠ JUndefined).
    { split; intros ->; discriminate. }
    destruct Hnot as [Hnull Hundef].
    destruct (Js.strict_equals supported
                (Js.of_optional_string (requestedVersion f)));
      cbn [fst]; repeat split; try (intros; discriminate);
      try (by intros w' [= <-]); try (by intros [[= ->]|[= ->]]).
    + intros [e He]. discriminate.
    + intros [H|[[e H]|[[= ->]|[= ->]]]]; try discriminate; done.
    + intros _. by left.
    + intros _. by eexists.
  - apply get_prop_thrown in Hread as [Hconfig ->]. cbn [fst].
    repeat split; try (intros; discriminate); try done.
    + intros _. destruct Hconfig as [->| ->]; auto.
    + intros _. by eexists.
Qed.

End VerifiedClient.

(** C4, as the specification words it, fails when the server answers the
    config request with [null]: the fetch succeeds and [null] is cached,
    the version check does not yield false but raises a [TypeError], and
    [createVerifiedClient] fails with it. *)
Lemma createVerifiedClient_fails_on_null_config :
  (getConfig (Examples.constant_server JNull) Examples.crud_factory
     Examples.fresh).1 = Returned JNull
  ∧ (isVersionSupported (Examples.constant_server JNull) Examples.crud_factory
       Examples.fresh).1 = Thrown TypeError
  ∧ (createVerifiedClient (Examples.constant_server JNull)
       Examples.crud_factory "apis/pas/crud/order" Examples.fresh).1
    = Thrown TypeError
  ∧ ¬ ((∃ e, (createVerifiedClient (Examples.constant_server JNull)
                Examples.crud_factory "apis/pas/crud/order"
                Examples.fresh).1 = Thrown e)
       ↔ ((isVersionSupported (Examples.constant_server JNull)
             Examples.crud_factory Examples.fresh).1 = Returned false
          ∨ ∃ e, (getConfig (Examples.constant_server JNull)
                    Examples.crud_factory Examples.fresh).1 = Thrown e)).
Proof.
  assert (H1 : (getConfig (Examples.constant_server JNull)
                  Examples.crud_factory Examples.fresh).1 = Returned JNull)
    by reflexivity.
  assert (H2 : (isVersionSupported (Examples.constant_server JNull)
                  Examples.crud_factory Examples.fresh).1 = Thrown TypeError)
    by reflexivity.
  assert (H3 : (createVerifiedClient (Examples.constant_server JNull)
                  Examples.crud_factory "apis/pas/crud/order"
                  Examples.fresh).1 = Thrown TypeError)
    by reflexivity.
  split; [done|]. split; [done|]. split; [done|].
  rewrite H1, H2, H3. intros [Hfails _].
  destruct Hfails as [H|[e H]]; [by eexists | discriminate | discriminate].
Qed.

(** The error of a version mismatch is a plain [Error]: a transport that
    fails with the same message makes [createVerifiedClient] throw the
    same value, so the message is all that tells the two apart. *)
Lemma createVerifiedClient_mismatch_is_plain_error :
  (createVerifiedClient
     (Examples.constant_server (JError "APP_VERSION_NOT_SUPPORTED"))
     Examples.crud_factory "apis/pas/crud/order" Examples.fresh).1
  = (createVerifiedClient
       (Examples.constant_server (JObj {[ "version_supported" := JStr "2.0" ]}))
       Examples.crud_factory "apis/pas/crud/order" Examples.fresh).1.
Proof. reflexivity. Qed.

(** ** ApiClientFactory.createClient *)

Lemma endsWith_char_snoc c s : endsWith_char c (s +:+ String c "") = true.
Proof.
  induction s as [|d s IH].
  - change ("" +:+ String c "") with (String c "").
    cbn [endsWith_char]. by case_decide.
  - change (String d s +:+ String c "") with (String d (s +:+ String c "")).
    destruct s as [|d' s'].
    + change ("" +:+ String c "") with (String c "") in *. exact IH.
    + change (String d' s' +:+ String c "")
        with (String d' (s' +:+ String c "")) in *.
      exact IH.
Qed.

(** C7. [createClient] is a total function of the factory and the path,
    without access to the world: it removes one leading [/] and no more,
    appends the rest to the base URL, which ends with [/] since the
    constructor, and passes the timeout of the factory on. A path without
    leading [/] gives the same client with and without one in front, as
    ['foo/bar'] does. *)
Theorem createClient_target f endpointPath :
  client_url (createClient f (String "/" endpointPath))
  = apiBaseUrl f +:+ endpointPath
  ∧ client_timeout (createClient f endpointPath) = timeout f
  ∧ (startsWith_char "/" endpointPath = false →
     client_url (createClient f endpointPath) = apiBaseUrl f +:+ endpointPath
     ∧ createClient f (String "/" endpointPath) = createClient f endpointPath)
  ∧ createClient f "/foo/bar" = createClient f "foo/bar"
  ∧ (∀ apiBaseUrl0 apiNamespace0 requestedVersion0 timeout0,
       endsWith_char "/"
         (apiBaseUrl (new_ApiClientFactory apiBaseUrl0 apiNamespace0
                        requestedVersion0 timeout0)) = true).
Proof.
  split; [reflexivity|]. split; [reflexivity|]. split.
  - intros H. unfold createClient. rewrite H. done.
  - split; [reflexivity|]. intros base ns v t.
    unfold new_ApiClientFactory. cbn [apiBaseUrl].
    destruct (endsWith_char "/" base) eqn:E; cbn [negb]; [done|].
    apply endsWith_char_snoc.
Qed.

(** ** CrudClient.handleResponse *)

Lemma map_singleton_of_size (fields : gmap string jsval) k v :
  fields !! k = Some v → size fields = 1 → fields = {[ k := v ]}.
Proof.
  intros Hk Hsize.
  rewrite <- (insert_delete_id fields k v Hk).
  assert (Hempty : delete k fields = ∅).
  { apply map_size_empty_inv. rewrite map_size_delete_Some by eauto.
    by rewrite Hsize. }
  by rewrite Hempty, insert_empty.
Qed.

(** [handleResponse] on a record. *)
Lemma handleResponse_record fields :
  handleResponse {| body := JObj fields |} =
  match fields !! "error" with
  | Some error =>
      if (size fields =? 1)%nat then
        match Js.get_prop error "message" with
        | Returned message => Thrown (Exception message "CRUD_ERROR")
        | Thrown e => Thrown e
        end
      else Returned (JObj fields)
  | None => Returned (JObj fields)
  end.
Proof.
  unfold handleResponse. cbn [body Js.is_error Js.has_property mbind outcome_bind].
  unfold Js.in_object. cbn [Js.keys_length Js.get_prop].
  unfold Js.read_object.
  destruct (fields !! "error") as [error|] eqn:E.
  - rewrite bool_decide_eq_true_2 by eauto. cbn [orb andb].
    destruct (size fields =? 1)%nat; [|done].
    unfold mbind, outcome_bind.
    by destruct (Js.get_prop error "message").
  - rewrite bool_decide_eq_false_2 by (by intros [? ?]). done.
Qed.

(** What [handleResponse] returns is the body, and it is a record, an
    array or a builtin: an error body is thrown, and on a primitive the
    test ['error' in body] raises a [TypeError]. *)
Lemma handleResponse_returned r normalized :
  handleResponse r = Returned normalized →
  normalized = body r
  ∧ ((∃ fields, normalized = JObj fields)
     ∨ (∃ items, normalized = JArr items)
     ∨ (∃ name, normalized = JNative name)).
Proof.
  destruct r as [b]. destruct b; try discriminate.
  - unfold handleResponse; cbn. intros [= <-]. eauto.
  - rewrite handleResponse_record. intros H.
    assert (normalized = JObj fields) as ->.
    { destruct (fields !! "error") as [error|]; [|congruence].
      destruct (size fields =? 1)%nat; [|congruence].
      destruct (Js.get_prop error "message"); discriminate. }
    eauto.
  - unfold handleResponse; cbn. intros [= <-]. eauto.
Qed.

(** C3, as the program has it. For a body that is not an error value,
    [handleResponse] fails with an [Exception] exactly when the body is a
    record with the single key [error] whose value is neither [null] nor
    [undefined]; the code is then [CRUD_ERROR] and the message is
    [body.error.message]. A record with [error] and another key is
    returned as it is. *)
Theorem handleResponse_crud_error r :
  Js.is_error (body r) = false →
  (∀ message code,
     handleResponse r = Thrown (Exception message code)
     ↔ code = "CRUD_ERROR"
       ∧ ∃ error, body r = JObj {[ "error" := error ]}
                  ∧ error ≠ JNull ∧ error ≠ JUndefined
                  ∧ Js.get_prop error "message" = Returned message)
  ∧ (∀ fields, body r = JObj fields → is_Some (fields !! "error") →
       1 < size fields → handleResponse r = Returned (body r)).
Proof.
  intros Hnoerr. destruct r as [b]. cbn [body] in *. split.
  - intros message code. split.
    + intros H. destruct b; try discriminate.
      rewrite handleResponse_record in H.
      destruct (fields !! "error") as [error|] eqn:E; [|discriminate].
      destruct (size fields =? 1)%nat eqn:Hsize; [|discriminate].
      apply Nat.eqb_eq in Hsize.
      destruct (Js.get_prop error "message") as [m|e] eqn:Hm; [|].
      * injection H as <- <-. split; [done|]. exists error.
        split; [f_equal; by apply map_singleton_of_size|].
        split; [intros ->; discriminate|]. split; [intros ->; discriminate|].
        done.
      * apply get_prop_thrown in Hm as [_ ->]. discriminate.
    + intros [-> (error & -> & Hnull & Hundef & Hm)].
      rewrite handleResponse_record, lookup_singleton_eq, map_size_singleton.
      cbn. by rewrite Hm.
  - intros fields -> [error Herr] Hsize.
    rewrite handleResponse_record, Herr.
    destruct (size fields =? 1)%nat eqn:E; [|done].
    apply Nat.eqb_eq in E. lia.
Qed.

(** C3, as the specification words it, fails on the body
    [{error: null}]: a record with exactly one key, named [error], on
    which [handleResponse] fails with the [TypeError] of reading
    [message] from [null], not with an [Exception]. *)
Lemma handleResponse_null_error :
  Js.is_error (JObj {[ "error" := JNull ]}) = false
  ∧ Js.keys_length (JObj {[ "error" := JNull ]}) = 1
  ∧ handleResponse {| body := JObj {[ "error" := JNull ]} |} = Thrown TypeError
  ∧ ¬ (∃ message,
         handleResponse {| body := JObj {[ "error" := JNull ]} |}
         = Thrown (Exception message "CRUD_ERROR")).
Proof.
  split; [reflexivity|]. split; [reflexivity|].
  assert (H : handleResponse {| body := JObj {[ "error" := JNull ]} |}
              = Thrown TypeError) by reflexivity.
  split; [done|]. rewrite H. intros [message Hm]. discriminate.
Qed.

(** ** CrudClient.isValid *)

(** After [handleResponse], the unwrapping of [isValid] cannot fail and is
    the one the specification describes. *)
Lemma unwrap_success_normalized r normalized :
  handleResponse r = Returned normalized →
  unwrap_success normalized = Returned (unwrap_in_words normalized).
Proof.
  intros H. apply handleResponse_returned in H as [_ Hshape].
  destruct Hshape as [[fields ->]|[[items ->]|[name ->]]]; [|done|done].
  unfold unwrap_success, unwrap_in_words.
  cbn [Js.has_property mbind outcome_bind Js.get_prop].
  unfold Js.in_object, Js.read_object.
  destruct (fields !! "success") as [success|] eqn:E.
  - rewrite bool_decide_eq_true_2 by eauto. cbn [orb].
    by destruct success.
  - rewrite bool_decide_eq_false_2 by (by intros [? ?]). done.
Qed.

Section IsValid.

Variable server : list request → request → jsval.

(** C8. [isValid] is the HEAD request through a verified client,
    normalised by [handleResponse], followed by the unwrapping of the
    specification: the boolean of the field [success] when the
    normalised body is a record with a boolean [success], the
    normalised body itself in every other case. [{success: true}]
    becomes [true]; [{success: "yes"}] stays as it is. *)
Theorem isValid_unwraps_success :
  (∀ c subPath data w,
     isValid server c subPath data w =
     (endpoint ← getEndpointFromSubPath c subPath;
      httpClient ← createVerifiedClient server (apiClientFactory c) endpoint;
      r ← requestHead server httpClient data;
      normalized ← lift (handleResponse r);
      mret (unwrap_in_words normalized)) w)
  ∧ (∀ fields b, fields !! "success" = Some (JBool b) →
       unwrap_in_words (JObj fields) = JBool b)
  ∧ (∀ normalized,
       (∀ fields b, normalized = JObj fields →
          fields !! "success" ≠ Some (JBool b)) →
       unwrap_in_words normalized = normalized)
  ∧ unwrap_in_words (JObj {[ "success" := JBool true ]}) = JBool true
  ∧ unwrap_in_words (JObj {[ "success" := JStr "yes" ]})
    = JObj {[ "success" := JStr "yes" ]}.
Proof.
  split.
  { intros c subPath data w. unfold isValid, mbind, M_bind.
    destruct (getEndpointFromSubPath c subPath w) as [[endpoint|e] w1]; [|done].
    destruct (createVerifiedClient server (apiClientFactory c) endpoint w1)
      as [[httpClient|e] w2]; [|done].
    destruct (requestHead server httpClient data w2) as [[r|e] w3]; [|done].
    unfold lift.
    destruct (handleResponse r) as [normalized|e] eqn:Hr; [|done].
    by rewrite (unwrap_success_normalized r normalized Hr). }
  split.
  { intros fields b H. unfold unwrap_in_words. by rewrite H. }
  split.
  { intros normalized H. unfold unwrap_in_words.
    destruct normalized; try done.
    destruct (fields !! "success") as [[]|] eqn:E; try done.
    exfalso. by eapply H. }
  split; reflexivity.
Qed.

End IsValid.

(** ** The array of the caller *)

Section Frame.

Variable server : list request → request → jsval.

Lemma keeps_arrays_bind {A B} (m : M A) (k : A → M B) :
  keeps_arrays m → (∀ a, keeps_arrays (k a)) → keeps_arrays (m ≫= k).
Proof.
  intros Hm Hk w. unfold mbind, M_bind.
  specialize (Hm w). destruct (m w) as [[a|e] w1]; cbn [snd] in *.
  - by rewrite Hk.
  - done.
Qed.

Lemma keeps_arrays_ret {A} (a : A) : keeps_arrays (mret a).
Proof. by intros w. Qed.

Lemma keeps_arrays_throw {A} e : keeps_arrays (@throw A e).
Proof. by intros w. Qed.

Lemma keeps_arrays_lift {A} (o : outcome A) : keeps_arrays (lift o).
Proof. by intros w. Qed.

Lemma keeps_arrays_send method client data :
  keeps_arrays (send server method client data).
Proof. by intros w. Qed.

Lemma keeps_arrays_createVerifiedClient f endpointPath :
  keeps_arrays (createVerifiedClient server f endpointPath).
Proof.
  intros w. rewrite createVerifiedClient_unfold, isVersionSupported_unfold.
  pose proof (getConfig_arrays server f w) as H.
  destruct (getConfig server f w) as [[config|e] w1]; cbn [snd] in *; [|done].
  destruct (Js.get_prop config "version_supported") as [supported|e]; [|done].
  by destruct (Js.strict_equals _ _).
Qed.

(** What follows the endpoint derivation in every operation. *)
Lemma keeps_arrays_call method c data (after : jsval → M jsval) endpoint :
  (∀ v, keeps_arrays (after v)) →
  keeps_arrays
    (httpClient ← createVerifiedClient server (apiClientFactory c) endpoint;
     r ← send server method httpClient data;
     normalized ← lift (handleResponse r);
     after normalized).
Proof.
  intros Hafter.
  apply keeps_arrays_bind; [apply keeps_arrays_createVerifiedClient|].
  intros httpClient.
  apply keeps_arrays_bind; [apply keeps_arrays_send|]. intros r.
  apply keeps_arrays_bind; [apply keeps_arrays_lift|]. done.
Qed.

Lemma operation_arrays op c subPath data w :
  op ∈ operations server →
  arrays (op c subPath data w).2
  = arrays (getEndpointFromSubPath c subPath w).2.
Proof.
  intros Hop.
  assert (Hshape : ∃ method (after : jsval → M jsval),
    (∀ v, keeps_arrays (after v)) ∧
    op c subPath data w =
    (endpoint ← getEndpointFromSubPath c subPath;
     httpClient ← createVerifiedClient server (apiClientFactory c) endpoint;
     r ← send server method httpClient data;
     normalized ← lift (handleResponse r);
     after normalized) w).
  { unfold operations in Hop.
    repeat (apply elem_of_cons in Hop as [->|Hop]);
      [ exists POST, mret | exists POST, mret | exists GET, mret
      | exists HEAD, (fun v => lift (unwrap_success v))
      | exists PATCH, mret | exists PUT, mret | by apply elem_of_nil in Hop ];
      (split; [intros v; by intros w'|]);
      unfold create, execute, get, isValid, update, upsert,
        requestPost, requestGet, requestHead, requestPatch, requestPut,
        mbind, M_bind;
      destruct (getEndpointFromSubPath c subPath w) as [[endpoint|e] w1];
      try done;
      destruct (createVerifiedClient server (apiClientFactory c) endpoint w1)
        as [[httpClient|e] w2]; try done;
      destruct (send server _ httpClient data w2) as [[r|e] w3]; try done;
      unfold lift, mret, M_ret; by destruct (handleResponse r). }
  destruct Hshape as (method & after & Hafter & ->).
  unfold mbind at 1. unfold M_bind at 1.
  destruct (getEndpointFromSubPath c subPath w) as [[endpoint|e] w1]; [|done].
  cbn [snd]. by apply keeps_arrays_call.
Qed.

(** C9. When the sub-path is an array of the caller, the endpoint
    derivation puts the entity of the client, percent-encoded by the
    constructor, in front of that very array and changes nothing else
    in the world; a sub-path that is not an array changes nothing at
    all. Every operation of [CrudClient] leaves the array of the caller
    one element longer, whether it succeeds or fails. *)
Theorem getEndpointFromSubPath_mutates_array c l contents w :
  arrays w !! l = Some contents →
  (getEndpointFromSubPath c (SubPaths l) w).2
  = set_arrays (<[l := entity c :: contents]> (arrays w)) w
  ∧ (∀ op data, op ∈ operations server →
       arrays (op c (SubPaths l) data w).2
       = <[l := entity c :: contents]> (arrays w))
  ∧ (∀ op data, op ∈ operations server →
       arrays (op c (SubPaths l) data w).2 !! l
       = Some (entity c :: contents))
  ∧ (∀ s, (getEndpointFromSubPath c (OneSubPath s) w).2 = w)
  ∧ (getEndpointFromSubPath c NoSubPath w).2 = w
  ∧ (∀ apiBaseUrl0 entity0 requestedVersion0 timeout0,
       entity (new_CrudClient apiBaseUrl0 entity0 requestedVersion0 timeout0)
       = Uri.encodeURIComponent entity0).
Proof.
  intros Hl.
  assert (Hrun : (getEndpointFromSubPath c (SubPaths l) w).2
            = set_arrays (<[l := entity c :: contents]> (arrays w)) w).
  { rewrite getEndpointFromSubPath_unfold. cbn [snd]. by rewrite Hl. }
  split; [done|]. split.
  { intros op data Hop. rewrite (operation_arrays op) by done.
    by rewrite Hrun. }
  split.
  { intros op data Hop. rewrite (operation_arrays op) by done.
    rewrite Hrun. cbn [set_arrays arrays]. apply lookup_insert_eq. }
  repeat split; intros; by rewrite getEndpointFromSubPath_unfold.
Qed.

End Frame.

(** ** The statements at concrete processes *)

Lemma handleResponse_crud_error_witness :
  handleResponse
    {| body := JObj {[ "error" := JObj {[ "message" := JStr "bad" ]} ]} |}
  = Thrown (Exception (JStr "bad") "CRUD_ERROR")
  ∧ handleResponse
      {| body := JObj {[ "error" := JObj {[ "message" := JStr "bad" ]};
                         "extra" := JNum 1 ]} |}
    = Returned (JObj {[ "error" := JObj {[ "message" := JStr "bad" ]};
                        "extra" := JNum 1 ]}).
Proof.
  split.
  - apply (handleResponse_crud_error
             {| body := JObj {[ "error" := JObj {[ "message" := JStr "bad" ]} ]} |}
             eq_refl).
    split; [reflexivity|].
    exists (JObj {[ "message" := JStr "bad" ]}).
    split; [reflexivity|]. split; [discriminate|]. split; [discriminate|].
    reflexivity.
  - apply (proj2 (handleResponse_crud_error
                    {| body := JObj {[ "error" := JObj {[ "message" := JStr "bad" ]};
                                       "extra" := JNum 1 ]} |}
                    eq_refl)
             {[ "error" := JObj {[ "message" := JStr "bad" ]};
                "extra" := JNum 1 ]} eq_refl).
    + exists (JObj {[ "message" := JStr "bad" ]}). reflexivity.
    + vm_compute. lia.
Defined.

Lemma createVerifiedClient_outcome_witness :
  createVerifiedClient Examples.versioned_server Examples.crud_factory
    "apis/pas/crud/order" Examples.fresh
  = (Returned (createClient Examples.crud_factory "apis/pas/crud/order"),
     (isVersionSupported Examples.versioned_server Examples.crud_factory
        Examples.fresh).2)
  ∧ (createVerifiedClient
       (Examples.constant_server (JObj {[ "version_supported" := JStr "2.0" ]}))
       Examples.crud_factory "apis/pas/crud/order" Examples.fresh).1
    = Thrown (ThrownValue (JError "APP_VERSION_NOT_SUPPORTED"))
  ∧ (createVerifiedClient (Examples.constant_server (JError "timeout"))
       Examples.crud_factory "apis/pas/crud/order" Examples.fresh).1
    = Thrown (ThrownValue (JError "timeout"))
  ∧ (createVerifiedClient (Examples.constant_server JNull)
       Examples.crud_factory "apis/pas/crud/order" Examples.fresh).1
    = Thrown TypeError.
Proof.
  split; [|split; [|split]].
  - apply (proj1 (createVerifiedClient_outcome Examples.versioned_server
                    Examples.crud_factory "apis/pas/crud/order" Examples.fresh)).
    reflexivity.
  - pose proof (proj1 (proj2 (createVerifiedClient_outcome
        (Examples.constant_server (JObj {[ "version_supported" := JStr "2.0" ]}))
        Examples.crud_factory "apis/pas/crud/order" Examples.fresh))) as H.
    rewrite (H _ eq_refl). reflexivity.
  - apply (proj1 (proj2 (proj2 (createVerifiedClient_outcome
        (Examples.constant_server (JError "timeout"))
        Examples.crud_factory "apis/pas/crud/order" Examples.fresh)))).
    reflexivity.
  - apply (proj1 (proj2 (proj2 (proj2 (createVerifiedClient_outcome
        (Examples.constant_server JNull)
        Examples.crud_factory "apis/pas/crud/order" Examples.fresh))))).
    left. reflexivity.
Defined.

Lemma isVersionSupported_strict_equality_witness :
  isVersionSupported Examples.versioned_server Examples.crud_factory
    Examples.fresh
  = (Returned true,
     (getConfig Examples.versioned_server Examples.crud_factory
        Examples.fresh).2).
Proof.
  apply (isVersionSupported_strict_equality Examples.versioned_server
           Examples.crud_factory Examples.fresh
           (JObj {[ "version_supported" := JStr "1.0" ]})
           (getConfig Examples.versioned_server Examples.crud_factory
              Examples.fresh).2
           (JStr "1.0")).
  - reflexivity.
  - reflexivity.
Defined.

Lemma getConfig_fetch_protocol_witness :
  requests (getConfig Examples.versioned_server Examples.crud_factory
              Examples.fresh).2
  = [ {| req_url := "http://x/.well-known/pas-crud-api/config";
         req_timeout := 5;
         req_method := POST;
         req_data := JObj {[ "crud_version" := JStr "1.0" ]} |} ].
Proof.
  apply (getConfig_fetch_protocol Examples.versioned_server
           Examples.crud_factory Examples.fresh).
  reflexivity.
Defined.

Lemma getConfig_failure_leaves_cache_witness :
  getConfig (Examples.constant_server (JError "timeout"))
    Examples.crud_factory Examples.fresh
  = (Thrown (ThrownValue (JError "timeout")),
     set_requests [config_request Examples.crud_factory] Examples.fresh)
  ∧ requests
      (getConfig (Examples.constant_server (JError "timeout"))
         Examples.crud_factory
         (getConfig (Examples.constant_server (JError "timeout"))
            Examples.crud_factory Examples.fresh).2).2
    = [config_request Examples.crud_factory;
       config_request Examples.crud_factory].
Proof.
  pose proof (getConfig_failure_leaves_cache
                (Examples.constant_server (JError "timeout"))
                Examples.crud_factory Examples.crud_factory Examples.fresh
                eq_refl eq_refl eq_refl) as (Hrun & _ & _ & Hagain).
  split; [exact Hrun|].
  rewrite Hagain, Hrun. reflexivity.
Defined.

Lemma createClient_target_witness :
  client_url (createClient Examples.crud_factory "foo/bar")
  = "http://x/foo/bar"
  ∧ createClient Examples.crud_factory "/foo/bar"
    = createClient Examples.crud_factory "foo/bar".
Proof.
  apply (proj1 (proj2 (proj2
           (createClient_target Examples.crud_factory "foo/bar")))).
  reflexivity.
Defined.

Lemma isValid_unwraps_success_witness :
  unwrap_in_words (JObj {[ "success" := JBool false; "count" := JNum 3 ]})
  = JBool false.
Proof.
  apply (proj1 (proj2 (isValid_unwraps_success Examples.versioned_server))).
  reflexivity.
Defined.

Lemma getEndpointFromSubPath_mutates_array_witness :
  (getEndpointFromSubPath Examples.user_accounts (SubPaths 1%positive)
     Examples.fresh).2
  = set_arrays {[ 1%positive := ["UserAccount"; "getProfile"] ]} Examples.fresh
  ∧ arrays (isValid Examples.versioned_server Examples.user_accounts
              (SubPaths 1%positive) JUndefined Examples.fresh).2 !! 1%positive
    = Some ["UserAccount"; "getProfile"].
Proof.
  pose proof (getEndpointFromSubPath_mutates_array Examples.versioned_server
                Examples.user_accounts 1%positive ["getProfile"]
                Examples.fresh eq_refl) as (Hrun & _ & Hops & _).
  split.
  - rewrite Hrun. reflexivity.
  - rewrite (Hops (isValid Examples.versioned_server) JUndefined).
    + reflexivity.
    + unfold operations. do 3 constructor 2. constructor 1.
Defined.

(** * Further properties *)

(** ** The operations of CrudClient, end to end *)

Section Operations.

Variable server : list request → request → jsval.

(** All six operations have one shape. *)
Lemma perform_unfold o c subPath data w :
  perform server o c subPath data w =
  (endpoint ← getEndpointFromSubPath c subPath;
   httpClient ← createVerifiedClient server (apiClientFactory c) endpoint;
   r ← send server (method_of o) httpClient data;
   normalized ← lift (handleResponse r);
   lift (finish o normalized)) w.
Proof.
  destruct o;
    unfold perform, create, execute, get, isValid, update, upsert,
      requestPost, requestGet, requestHead, requestPatch, requestPut,
      method_of, finish, mbind, M_bind;
    destruct (getEndpointFromSubPath c subPath w) as [[endpoint|e] w1];
    try done;
    destruct (createVerifiedClient server (apiClientFactory c) endpoint w1)
      as [[httpClient|e] w2]; try done;
    destruct (send server _ httpClient data w2) as [[r|e] w3]; try done;
    unfold lift; by destruct (handleResponse r).
Qed.

(** The endpoint starts with [apis], so [createClient] has nothing to strip. *)
Lemma endpoint_no_leading_slash rewrite_segment c subPath w :
  startsWith_char "/" (endpoint_with rewrite_segment c subPath w) = false.
Proof. reflexivity. Qed.

Lemma createClient_endpoint c subPath w :
  createClient (apiClientFactory c) (endpoint_with snake_segment c subPath w)
  = new_HttpJsonClient
      (apiBaseUrl (apiClientFactory c) +:+ endpoint_with snake_segment c subPath w)
      (timeout (apiClientFactory c)).
Proof.
  unfold createClient. by rewrite endpoint_no_leading_slash.
Qed.

(** The version check changes the world as [getConfig] does. *)
Lemma isVersionSupported_world f w :
  (isVersionSupported server f w).2 = (getConfig server f w).2.
Proof.
  rewrite isVersionSupported_unfold.
  by destruct (getConfig server f w) as [[config|e] w1].
Qed.


(** An operation in terms of the version check. *)
Lemma perform_by_version_check o c subPath data w :
  perform server o c subPath data w =
  match isVersionSupported server (apiClientFactory c)
          (getEndpointFromSubPath c subPath w).2 with
  | (Returned true, w2) =>
      (normalized ←
         handleResponse
           {| body := server (requests w2) (crud_request o c subPath data w) |};
       finish o normalized,
       set_requests (requests w2 ++ [crud_request o c subPath data w]) w2)
  | (Returned false, w2) =>
      (Thrown (ThrownValue (JError "APP_VERSION_NOT_SUPPORTED")), w2)
  | (Thrown e, w2) => (Thrown e, w2)
  end.
Proof.
  rewrite perform_unfold. unfold mbind at 1. unfold M_bind at 1.
  rewrite getEndpointFromSubPath_unfold. cbn [snd].
  unfold mbind at 1. unfold M_bind at 1.
  rewrite createVerifiedClient_unfold.
  destruct (isVersionSupported server (apiClientFactory c) _)
    as [[[]|e] w2]; [|done|done].
  rewrite createClient_endpoint.
  unfold mbind at 1. unfold M_bind at 1.
  unfold send, new_HttpJsonClient. cbn [client_url client_timeout].
  fold (crud_request o c subPath data w).
  unfold mbind at 1. unfold M_bind at 1. unfold lift.
  by destruct (handleResponse _).
Qed.

(** The requests of an operation: those of the config lookup, then its
    own when the version check yields true. *)
Lemma perform_requests_split o c subPath data w :
  requests (perform server o c subPath data w).2 =
  requests (getConfig server (apiClientFactory c)
              (getEndpointFromSubPath c subPath w).2).2
  ++ (match (isVersionSupported server (apiClientFactory c)
               (getEndpointFromSubPath c subPath w).2).1 with
      | Returned true => [crud_request o c subPath data w]
      | _ => []
      end).
Proof.
  rewrite perform_by_version_check, <- isVersionSupported_world.
  destruct (isVersionSupported server (apiClientFactory c) _)
    as [[[]|e] w2]; cbn [fst snd set_requests requests];
    by rewrite ?app_nil_r.
Qed.

Lemma getEndpointFromSubPath_requests c subPath w :
  requests (getEndpointFromSubPath c subPath w).2 = requests w.
Proof. rewrite getEndpointFromSubPath_unfold. by destruct subPath. Qed.

Lemma getEndpointFromSubPath_keeps_configs c subPath w :
  configs (getEndpointFromSubPath c subPath w).2 = configs w.
Proof. rewrite getEndpointFromSubPath_unfold. by destruct subPath. Qed.

(** X3. An operation sends two requests at most, in this order: the config
    request, when the namespace of its factory is not known yet, and the
    request on the resource, when the version check yields true. The
    latter goes to the base URL followed by the endpoint, with the
    timeout of the factory, the verb of the operation and the data of the
    caller. *)
Theorem operation_requests o c subPath data w :
  requests (perform server o c subPath data w).2 =
  requests w
  ++ (if Js.in_object (apiNamespace (apiClientFactory c)) (configs w)
      then [] else [config_request (apiClientFactory c)])
  ++ (match (isVersionSupported server (apiClientFactory c)
               (getEndpointFromSubPath c subPath w).2).1 with
      | Returned true =>
          [ {| req_url :=
                 apiBaseUrl (apiClientFactory c)
                 +:+ endpoint_with snake_segment c subPath w;
               req_timeout := timeout (apiClientFactory c);
               req_method := method_of o;
               req_data := data |} ]
      | _ => []
      end).
Proof.
  rewrite perform_requests_split, getConfig_requests.
  rewrite getEndpointFromSubPath_requests, getEndpointFromSubPath_keeps_configs.
  rewrite <- app_assoc. do 2 f_equal.
Qed.

(** X4. When the version check yields true, an operation answers with
    [handleResponse] of what the transport says to its request, unwrapped
    in the case of [isValid]; when it yields false the operation fails
    with [Error('APP_VERSION_NOT_SUPPORTED')], when it fails the operation
    fails alike, and in both cases the world is the one the version check
    left: nothing is sent to the resource. *)
Theorem operation_outcome o c subPath data w :
  (∀ w2, isVersionSupported server (apiClientFactory c)
           (getEndpointFromSubPath c subPath w).2 = (Returned true, w2) →
     (perform server o c subPath data w).1
     = (normalized ←
          handleResponse
            {| body := server (requests w2) (crud_request o c subPath data w) |};
        finish o normalized))
  ∧ (∀ w2, isVersionSupported server (apiClientFactory c)
             (getEndpointFromSubPath c subPath w).2 = (Returned false, w2) →
       perform server o c subPath data w
       = (Thrown (ThrownValue (JError "APP_VERSION_NOT_SUPPORTED")), w2))
  ∧ (∀ e w2, isVersionSupported server (apiClientFactory c)
               (getEndpointFromSubPath c subPath w).2 = (Thrown e, w2) →
       perform server o c subPath data w = (Thrown e, w2)).
Proof.
  rewrite perform_by_version_check.
  repeat split; intros; by match goal with H : _ = _ |- _ => rewrite H end.
Qed.

(** X5. An error value that the transport answers to an operation is
    thrown by the operation as it is, whatever the operation. *)
Theorem operation_rethrows_transport_error o c subPath data w w2 :
  isVersionSupported server (apiClientFactory c)
    (getEndpointFromSubPath c subPath w).2 = (Returned true, w2) →
  Js.is_error (server (requests w2) (crud_request o c subPath data w)) = true →
  (perform server o c subPath data w).1
  = Thrown (ThrownValue (server (requests w2) (crud_request o c subPath data w))).
Proof.
  intros Hcheck Herr. rewrite perform_by_version_check, Hcheck. cbn [fst].
  unfold handleResponse. cbn [body]. by rewrite Herr.
Qed.

(** X7. When the transport answers [isValid] with a record whose
    [success] is a boolean, [isValid] returns that boolean: [false] is a
    result, not a failure, and other keys of the record, [error]
    included, do not matter. *)
Theorem isValid_boolean c subPath data w w2 fields b :
  isVersionSupported server (apiClientFactory c)
    (getEndpointFromSubPath c subPath w).2 = (Returned true, w2) →
  server (requests w2) (crud_request OpIsValid c subPath data w) = JObj fields →
  fields !! "success" = Some (JBool b) →
  (isValid server c subPath data w).1 = Returned (JBool b).
Proof.
  intros Hcheck Hanswer Hsuccess.
  change (isValid server) with (perform server OpIsValid).
  rewrite perform_by_version_check, Hcheck. cbn [fst]. rewrite Hanswer.
  assert (Hnormal : handleResponse {| body := JObj fields |}
                    = Returned (JObj fields)).
  { rewrite handleResponse_record.
    destruct (fields !! "error") as [error|] eqn:Herror; [|done].
    destruct (size fields =? 1)%nat eqn:Hsize; [|done].
    apply Nat.eqb_eq in Hsize.
    rewrite (map_singleton_of_size fields "error" error Herror Hsize)
      in Hsuccess.
    by rewrite lookup_singleton_ne in Hsuccess. }
  rewrite Hnormal. cbn [mbind outcome_bind finish].
  rewrite (unwrap_success_normalized _ _ Hnormal).
  unfold unwrap_in_words. by rewrite Hsuccess.
Qed.

End Operations.

(** ** Constructors *)

(** X1. The constructor of [ApiClientFactory] appends [/] to a base URL
    that does not end with one and leaves alone one that does, so a base
    URL with and without trailing [/] give the same factory; the empty
    base URL becomes [/]. *)
Theorem new_ApiClientFactory_base_url apiBaseUrl0 apiNamespace0
    requestedVersion0 timeout0 :
  (endsWith_char "/" apiBaseUrl0 = true →
   apiBaseUrl (new_ApiClientFactory apiBaseUrl0 apiNamespace0
                 requestedVersion0 timeout0) = apiBaseUrl0)
  ∧ (endsWith_char "/" apiBaseUrl0 = false →
     apiBaseUrl (new_ApiClientFactory apiBaseUrl0 apiNamespace0
                   requestedVersion0 timeout0) = apiBaseUrl0 +:+ "/"
     ∧ new_ApiClientFactory (apiBaseUrl0 +:+ "/") apiNamespace0
         requestedVersion0 timeout0
       = new_ApiClientFactory apiBaseUrl0 apiNamespace0
           requestedVersion0 timeout0)
  ∧ apiBaseUrl (new_ApiClientFactory "" apiNamespace0
                  requestedVersion0 timeout0) = "/".
Proof.
  unfold new_ApiClientFactory. cbn [apiBaseUrl].
  split; [by intros ->|]. split; [|reflexivity].
  intros Hno. rewrite Hno. cbn [negb]. split; [done|].
  by rewrite endsWith_char_snoc.
Qed.

(** X2. Whatever the entity, a [CrudClient] made by the constructor
    checks the version of the namespace [crud]: in a process that has no
    config for [crud] yet, every operation first sends the config request
    to [.well-known/pas-crud-api/config] under the base URL, with timeout
    5 whatever the timeout of the client, a requested version travelling
    under the key [crud_version]; the request on the resource is the only
    one that can follow. *)
Theorem new_CrudClient_first_request server apiBaseUrl0 entity0
    requestedVersion0 timeout0 o subPath data w :
  configs w !! "crud" = None →
  ∃ rest,
    requests
      (perform server o
         (new_CrudClient apiBaseUrl0 entity0 requestedVersion0 timeout0)
         subPath data w).2
    = requests w
      ++ {| req_url :=
              apiBaseUrl (new_ApiClientFactory apiBaseUrl0 "crud"
                            requestedVersion0 timeout0)
              +:+ ".well-known/pas-crud-api/config";
            req_timeout := 5;
            req_method :=
              match requestedVersion0 with Some _ => POST | None => GET end;
            req_data :=
              match requestedVersion0 with
              | Some version => JObj {[ "crud_version" := JStr version ]}
              | None => JUndefined
              end |}
         :: rest
    ∧ (rest = []
       ∨ rest = [crud_request o
                   (new_CrudClient apiBaseUrl0 entity0 requestedVersion0
                      timeout0)
                   subPath data w]).
Proof.
  intros Hnone.
  rewrite perform_requests_split, getConfig_requests.
  rewrite getEndpointFromSubPath_requests, getEndpointFromSubPath_keeps_configs.
  rewrite <- app_assoc.
  assert (Hunknown :
    Js.in_object
      (apiNamespace
         (apiClientFactory
            (new_CrudClient apiBaseUrl0 entity0 requestedVersion0 timeout0)))
      (configs w) = false).
  { change (apiNamespace _) with "crud". unfold Js.in_object. rewrite Hnone.
    reflexivity. }
  rewrite Hunknown.
  eexists. split.
  - cbn [app]. reflexivity.
  - destruct (isVersionSupported _ _ _).1 as [[]|]; auto.
Qed.

(** ** CrudClient.handleResponse on every kind of body *)

(** X6. [handleResponse] returns an array as it is and a record without
    the key [error] as it is; on a body that is [null], [undefined], a
    boolean, a number or a string it fails with the [TypeError] of the
    test ['error' in body]; an error value is thrown as it is. Whenever
    it returns, it returns the body. *)
Theorem handleResponse_by_body r :
  (∀ items, body r = JArr items → handleResponse r = Returned (body r))
  ∧ (∀ fields, body r = JObj fields → fields !! "error" = None →
       handleResponse r = Returned (body r))
  ∧ (body r = JNull ∨ body r = JUndefined ∨ (∃ b, body r = JBool b)
     ∨ (∃ n, body r = JNum n) ∨ (∃ s, body r = JStr s) →
     handleResponse r = Thrown TypeError)
  ∧ (Js.is_error (body r) = true →
     handleResponse r = Thrown (ThrownValue (body r)))
  ∧ (∀ normalized, handleResponse r = Returned normalized →
       normalized = body r).
Proof.
  destruct r as [b]. cbn [body]. split; [by intros items ->|]. split.
  { intros fields -> Hnone. by rewrite handleResponse_record, Hnone. }
  split.
  { intros [->|[->|[[x ->]|[[x ->]|[x ->]]]]]; reflexivity. }
  split.
  { intros H. unfold handleResponse. cbn [body]. by rewrite H. }
  intros normalized H. by apply handleResponse_returned in H as [-> _].
Qed.

(** ** The config cache over the life of a process *)

Section CacheLife.

Variable server : list request → request → jsval.





Lemma getEndpointFromSubPath_configs c subPath w :
  configs (getEndpointFromSubPath c subPath w).2 = configs w.
Proof. rewrite getEndpointFromSubPath_unfold. by destruct subPath. Qed.








End CacheLife.

(** ** Reusing the array of a sub-path *)

(** X10. Deriving the endpoint again from the same array of the caller
    does not give the same endpoint: each derivation leaves one more copy
    of the entity in front of the array, and the next one derives from
    that. A sub-path given as a string, or none, derives the same
    endpoint every time. *)
Theorem getEndpointFromSubPath_repeated c l contents w n :
  arrays w !! l = Some contents →
  arrays (Nat.iter n (fun w' => (getEndpointFromSubPath c (SubPaths l) w').2) w)
    !! l = Some (repeat (entity c) n ++ contents)
  ∧ (getEndpointFromSubPath c (SubPaths l)
       (Nat.iter n (fun w' => (getEndpointFromSubPath c (SubPaths l) w').2) w)).1
    = Returned
        (join "/" (["apis"; "pas"; "crud"]
                   ++ map snake_segment (repeat (entity c) (S n) ++ contents)))
  ∧ (∀ s, getEndpointFromSubPath c (OneSubPath s)
            (getEndpointFromSubPath c (OneSubPath s) w).2
          = getEndpointFromSubPath c (OneSubPath s) w)
  ∧ getEndpointFromSubPath c NoSubPath (getEndpointFromSubPath c NoSubPath w).2
    = getEndpointFromSubPath c NoSubPath w.
Proof.
  intros Hl.
  assert (Hiter : arrays (Nat.iter n
            (fun w' => (getEndpointFromSubPath c (SubPaths l) w').2) w) !! l
          = Some (repeat (entity c) n ++ contents)).
  { induction n as [|n IH]; [done|].
    rewrite Nat.iter_succ. rewrite getEndpointFromSubPath_unfold. cbn [snd].
    rewrite IH. cbn [default set_arrays arrays]. by rewrite lookup_insert_eq. }
  split; [done|]. split.
  - rewrite getEndpointFromSubPath_unfold. cbn [fst].
    unfold endpoint_with, segments. by rewrite Hiter.
  - split; [intros s|]; by rewrite !getEndpointFromSubPath_unfold.
Qed.

(** ** Segments and endpoints as strings *)

Module StringFacts.
















End StringFacts.



(** ** Percent-encoding by the constructors *)

Module UriFacts.





End UriFacts.


(** ** What a process never does *)

Section Never.

Variable server : list request → request → jsval.




(** X15. When the config request of an operation is answered with an
    error value, the operation throws that value as it is and the config
    request is the only request sent: the resource is not contacted. *)
Theorem operation_config_failure o c subPath data w :
  Js.in_object (apiNamespace (apiClientFactory c)) (configs w) = false →
  Js.is_error (server (requests w) (config_request (apiClientFactory c)))
  = true →
  (perform server o c subPath data w).1
  = Thrown (ThrownValue
              (server (requests w) (config_request (apiClientFactory c))))
  ∧ requests (perform server o c subPath data w).2
    = requests w ++ [config_request (apiClientFactory c)].
Proof.
  intros Hnew Herr.
  rewrite perform_by_version_check, isVersionSupported_unfold.
  assert (Hc : configs (getEndpointFromSubPath c subPath w).2 = configs w)
    by apply getEndpointFromSubPath_configs.
  assert (Hr : requests (getEndpointFromSubPath c subPath w).2 = requests w).
  { rewrite getEndpointFromSubPath_unfold. by destruct subPath. }
  rewrite getConfig_fetch by (by rewrite Hc). cbn zeta.
  rewrite Hr, Herr. done.
Qed.

End Never.

(** ** The further statements at concrete processes *)

Lemma new_ApiClientFactory_base_url_witness :
  apiBaseUrl (new_ApiClientFactory "http://x" "crud" None None) = "http://x/"
  ∧ new_ApiClientFactory "http://x/" "crud" None None
    = new_ApiClientFactory "http://x" "crud" None None
  ∧ apiBaseUrl (new_ApiClientFactory "http://x/" "crud" None None)
    = "http://x/".
Proof.
  pose proof (new_ApiClientFactory_base_url "http://x" "crud" None None)
    as (_ & Hadd & _).
  pose proof (new_ApiClientFactory_base_url "http://x/" "crud" None None)
    as (Hkeep & _ & _).
  destruct (Hadd eq_refl) as [H1 H2].
  split; [exact H1|]. split; [exact H2|]. exact (Hkeep eq_refl).
Defined.

Lemma new_CrudClient_first_request_witness :
  ∃ rest,
    requests
      (perform Examples.versioned_server OpGet
         (new_CrudClient "http://x" "order" (Some "1.0") None)
         NoSubPath JUndefined Examples.fresh).2
    = requests Examples.fresh
      ++ {| req_url :=
              apiBaseUrl (new_ApiClientFactory "http://x" "crud" (Some "1.0")
                            None)
              +:+ ".well-known/pas-crud-api/config";
            req_timeout := 5;
            req_method := POST;
            req_data := JObj {[ "crud_version" := JStr "1.0" ]} |}
         :: rest
    ∧ (rest = []
       ∨ rest = [crud_request OpGet
                   (new_CrudClient "http://x" "order" (Some "1.0") None)
                   NoSubPath JUndefined Examples.fresh]).
Proof.
  apply (new_CrudClient_first_request Examples.versioned_server
           "http://x" "order" (Some "1.0") None OpGet NoSubPath JUndefined
           Examples.fresh).
  reflexivity.
Defined.

Lemma operation_outcome_witness :
  (perform Examples.versioned_server OpGet Examples.user_accounts
     (SubPaths 1%positive) JUndefined Examples.fresh).1
  = Returned (JObj {[ "success" := JBool true ]})
  ∧ (perform
       (Examples.constant_server (JObj {[ "version_supported" := JStr "2.0" ]}))
       OpGet Examples.user_accounts (SubPaths 1%positive) JUndefined
       Examples.fresh).1
    = Thrown (ThrownValue (JError "APP_VERSION_NOT_SUPPORTED"))
  ∧ (perform (Examples.constant_server JNull)
       OpGet Examples.user_accounts (SubPaths 1%positive) JUndefined
       Examples.fresh).1
    = Thrown TypeError.
Proof.
  split; [|split].
  - rewrite (proj1 (operation_outcome Examples.versioned_server OpGet
                      Examples.user_accounts (SubPaths 1%positive) JUndefined
                      Examples.fresh) _ eq_refl).
    reflexivity.
  - erewrite (proj1 (proj2 (operation_outcome
                      (Examples.constant_server
                         (JObj {[ "version_supported" := JStr "2.0" ]}))
                      OpGet Examples.user_accounts (SubPaths 1%positive)
                      JUndefined Examples.fresh)));
      [reflexivity | vm_compute; reflexivity].
  - erewrite (proj2 (proj2 (operation_outcome
                      (Examples.constant_server JNull)
                      OpGet Examples.user_accounts (SubPaths 1%positive)
                      JUndefined Examples.fresh)));
      [reflexivity | vm_compute; reflexivity].
Defined.

Lemma operation_rethrows_transport_error_witness :
  (perform unreachable_resources OpUpdate Examples.user_accounts
     NoSubPath (JObj {[ "name" := JStr "n" ]}) Examples.fresh).1
  = Thrown (ThrownValue (JError "timeout")).
Proof.
  rewrite (operation_rethrows_transport_error unreachable_resources OpUpdate
             Examples.user_accounts NoSubPath (JObj {[ "name" := JStr "n" ]})
             Examples.fresh _ eq_refl eq_refl).
  reflexivity.
Defined.

Lemma handleResponse_by_body_witness :
  handleResponse {| body := JArr [JNum 1] |} = Returned (JArr [JNum 1])
  ∧ handleResponse {| body := JObj {[ "id" := JNum 7 ]} |}
    = Returned (JObj {[ "id" := JNum 7 ]})
  ∧ handleResponse {| body := JStr "ok" |} = Thrown TypeError
  ∧ handleResponse {| body := JError "timeout" |}
    = Thrown (ThrownValue (JError "timeout")).
Proof.
  split; [|split; [|split]].
  - apply (proj1 (handleResponse_by_body {| body := JArr [JNum 1] |})
             [JNum 1] eq_refl).
  - apply (proj1 (proj2 (handleResponse_by_body
                           {| body := JObj {[ "id" := JNum 7 ]} |}))
             {[ "id" := JNum 7 ]} eq_refl).
    reflexivity.
  - apply (proj1 (proj2 (proj2 (handleResponse_by_body
                                  {| body := JStr "ok" |})))).
    right. right. right. right. by exists "ok".
  - apply (proj1 (proj2 (proj2 (proj2 (handleResponse_by_body
                                         {| body := JError "timeout" |}))))).
    reflexivity.
Defined.

Lemma isValid_boolean_witness :
  (isValid Examples.versioned_server Examples.user_accounts
     (SubPaths 1%positive) JUndefined Examples.fresh).1
  = Returned (JBool true).
Proof.
  apply (isValid_boolean Examples.versioned_server Examples.user_accounts
           (SubPaths 1%positive) JUndefined Examples.fresh _
           {[ "success" := JBool true ]} true eq_refl eq_refl eq_refl).
Defined.



Lemma getEndpointFromSubPath_repeated_witness :
  (getEndpointFromSubPath Examples.user_accounts (SubPaths 1%positive)
     (Nat.iter 1
        (fun w' =>
           (getEndpointFromSubPath Examples.user_accounts
              (SubPaths 1%positive) w').2)
        Examples.fresh)).1
  = Returned "apis/pas/crud/user_account/user_account/get_profile".
Proof.
  rewrite (proj1 (proj2 (getEndpointFromSubPath_repeated
                           Examples.user_accounts 1%positive ["getProfile"]
                           Examples.fresh 1 eq_refl))).
  reflexivity.
Defined.





Lemma operation_config_failure_witness :
  (perform (Examples.constant_server (JError "timeout")) OpCreate
     Examples.user_accounts NoSubPath JUndefined Examples.fresh).1
  = Thrown (ThrownValue (JError "timeout"))
  ∧ requests
      (perform (Examples.constant_server (JError "timeout")) OpCreate
         Examples.user_accounts NoSubPath JUndefined Examples.fresh).2
    = [config_request (apiClientFactory Examples.user_accounts)].
Proof.
  apply (operation_config_failure (Examples.constant_server (JError "timeout"))
           OpCreate Examples.user_accounts NoSubPath JUndefined Examples.fresh
           eq_refl eq_refl).
Defined.
